(** * Smilei: particle boundary-condition setup and the PIC time loop

    A shallow embedding of
    - [PartBoundCond::PartBoundCond] (src/Species/PartBoundCond.cpp), the
      constructor that chooses, per species and per patch face, the local
      boundary function applied to particles, and
    - the mirror-domain setup and the time loop of [main], as the sequence
      of calls one thread of the parallel region issues.

    C++ [double] values are primitive binary64 floats; [std::string]
    comparisons are [String.eqb]; [std::vector] reads are list lookups. *)

From Stdlib Require Import String List ZArith Bool Lia.
From Stdlib Require Import Floats.PrimFloat Numbers.Cyclic.Int63.Uint63.
From Stdlib Require Floats.SpecFloat Floats.FloatOps Floats.FloatAxioms.
From stdpp Require Import base list.

Local Open Scope string_scope.
Local Open Scope bool_scope.

(** ** Vectors

    [v[i]] on a [std::vector] is undefined outside the vector.  The model
    reads a default there (the empty string, zero); the constructor only
    reads the entries its geometry provides when [Params] is well formed. *)

Definition vec2_at (t : list (list string)) (i j : nat) : string :=
  default "" (t !! i ≫= (.!! j)).

Definition vecd_at (v : list float) (i : nat) : float :=
  default 0%float (v !! i).

Definition vecu_at (v : list N) (i : nat) : N :=
  default 0%N (v !! i).

(** ** Doubles *)

(** Conversion of an [unsigned int] to [double] (exact below 2^53). *)
Definition double_of_uint (n : N) : float :=
  PrimFloat.of_uint63 (Uint63.of_Z (Z.of_N n)).

(** [std::max(a,b)] is [(a < b) ? b : a]. *)
Definition dmax (a b : float) : float :=
  if PrimFloat.ltb a b then b else a.

(** [std::min(a,b)] is [(b < a) ? b : a]. *)
Definition dmin (a b : float) : float :=
  if PrimFloat.ltb b a then b else a.

(** ** The faces of a patch *)

Inductive face : Type := Xmin | Xmax | Ymin | Ymax | Zmin | Zmax.

Definition face_eqb (f g : face) : bool :=
  match f, g with
  | Xmin, Xmin | Xmax, Xmax | Ymin, Ymin
  | Ymax, Ymax | Zmin, Zmin | Zmax, Zmax => true
  | _, _ => false
  end.

(** Axis and side of a face: the indices of its entry in
    [boundary_conditions]. *)
Definition face_axis (f : face) : nat :=
  match f with Xmin | Xmax => 0 | Ymin | Ymax => 1 | Zmin | Zmax => 2 end.

Definition face_side (f : face) : nat :=
  match f with Xmin | Ymin | Zmin => 0 | Xmax | Ymax | Zmax => 1 end.

(** ** BoundaryConditionType.h: the particle boundary functions

    The constructor only stores their addresses, so a function is
    represented by its name. *)
Module BoundaryConditionType.

Inductive fn : Type :=
| reflect_particle
| remove_particle
| remove_photon
| stop_particle
| thermalize_particle.

End BoundaryConditionType.
Import BoundaryConditionType.

(** ** Params, Particles, Species, Patch: the members the code reads *)

Module Params.
Record t : Type := mk {
  geometry : string;
  nDim_particle : nat;
  nDim_field : nat;
  cell_length : list float;
  n_space_global : list N;
  EM_BCs : list (list string);
  hasWindow : bool;
  timestep : float;
  n_time : N;
  time_fields_frozen : float;
  has_load_balancing : bool;
  (** [load_balancing_time_selection->theTimeIsNow(itime)] *)
  theTimeIsNow : N -> bool;
  (** [printNow(itime)] *)
  printNow : N -> bool
}.
End Params.

Module Particles.
Record t : Type := mk { tracked : bool }.
End Particles.

Module Species.
Record t : Type := mk {
  name : string;
  mass : float;
  boundary_conditions : list (list string);
  particles : Particles.t
}.
End Species.

Module Patch.
Record t : Type := mk {
  getDomainLocalMin : nat -> float;
  getDomainLocalMax : nat -> float;
  isXmin : bool;
  isXmax : bool;
  isYmin : bool;
  isYmax : bool;
  isZmin : bool;
  isZmax : bool
}.

(** Whether face [f] of the patch lies on the global boundary. *)
Definition on_boundary (p : t) (f : face) : bool :=
  match f with
  | Xmin => isXmin p | Xmax => isXmax p
  | Ymin => isYmin p | Ymax => isYmax p
  | Zmin => isZmin p | Zmax => isZmax p
  end.
End Patch.

(** ** Tools.h: ERROR

    [ERROR(txt)] prints [txt] and aborts the run; nothing after it
    executes.  The three kinds of message the constructor can emit:
    - "For species <name>, periodic EM <x|y|z>-boundary conditions require
      particle BCs to be periodic."
    - "<Face> boundary condition `<value>` unknown" ("undefined" for Ymax)
    - "Only Remove boundary conditions can be applied to particles in Rz
      geometry"
    [MESSAGE] only prints and is left out. *)
Inductive error : Type :=
| PeriodicEM_requires_periodic (species_name : string) (iDim : nat)
| unknown_BC (f : face) (value : string)
| only_remove_in_Rz.

Inductive result (A : Type) : Type :=
| Ok (a : A)
| Error (e : error).
Arguments Ok {A} a.
Arguments Error {A} e.

(** ** PartBoundCond *)

Module PartBoundCond.

(** The object under construction.  A limit the constructor never assigns
    stays [None]; a NULL function pointer is [None]. *)
Record t : Type := mk {
  isRZ : bool;
  nDim_particle : nat;
  nDim_field : nat;
  x_min : option float;
  x_max : option float;
  y_min : option float;
  y_max : option float;
  z_min : option float;
  z_max : option float;
  bc_xmin : option fn;
  bc_xmax : option fn;
  bc_ymin : option fn;
  bc_ymax : option fn;
  bc_zmin : option fn;
  bc_zmax : option fn
}.

(** The function pointer of a face. *)
Definition bc (s : t) (f : face) : option fn :=
  match f with
  | Xmin => bc_xmin s | Xmax => bc_xmax s
  | Ymin => bc_ymin s | Ymax => bc_ymax s
  | Zmin => bc_zmin s | Zmax => bc_zmax s
  end.

Definition set_x (lo hi : float) (s : t) : t :=
  mk (isRZ s) (nDim_particle s) (nDim_field s)
     (Some lo) (Some hi) (y_min s) (y_max s) (z_min s) (z_max s)
     (bc_xmin s) (bc_xmax s) (bc_ymin s) (bc_ymax s) (bc_zmin s) (bc_zmax s).

Definition set_y (lo hi : float) (s : t) : t :=
  mk (isRZ s) (nDim_particle s) (nDim_field s)
     (x_min s) (x_max s) (Some lo) (Some hi) (z_min s) (z_max s)
     (bc_xmin s) (bc_xmax s) (bc_ymin s) (bc_ymax s) (bc_zmin s) (bc_zmax s).

Definition set_z (lo hi : float) (s : t) : t :=
  mk (isRZ s) (nDim_particle s) (nDim_field s)
     (x_min s) (x_max s) (y_min s) (y_max s) (Some lo) (Some hi)
     (bc_xmin s) (bc_xmax s) (bc_ymin s) (bc_ymax s) (bc_zmin s) (bc_zmax s).

Definition set_bc (f : face) (p : fn) (s : t) : t :=
  let lim := mk (isRZ s) (nDim_particle s) (nDim_field s)
                (x_min s) (x_max s) (y_min s) (y_max s) (z_min s) (z_max s) in
  match f with
  | Xmin => lim (Some p) (bc_xmax s) (bc_ymin s) (bc_ymax s) (bc_zmin s) (bc_zmax s)
  | Xmax => lim (bc_xmin s) (Some p) (bc_ymin s) (bc_ymax s) (bc_zmin s) (bc_zmax s)
  | Ymin => lim (bc_xmin s) (bc_xmax s) (Some p) (bc_ymax s) (bc_zmin s) (bc_zmax s)
  | Ymax => lim (bc_xmin s) (bc_xmax s) (bc_ymin s) (Some p) (bc_zmin s) (bc_zmax s)
  | Zmin => lim (bc_xmin s) (bc_xmax s) (bc_ymin s) (bc_ymax s) (Some p) (bc_zmax s)
  | Zmax => lim (bc_xmin s) (bc_xmax s) (bc_ymin s) (bc_ymax s) (bc_zmin s) (Some p)
  end.

(** *** The constructor body as a computation on the object

    A statement either updates the object or aborts with an [error]. *)
Definition M (A : Type) : Type := t -> result (A * t).

Definition ret {A} (a : A) : M A := fun s => Ok (a, s).

Definition bind {A B} (m : M A) (k : A -> M B) : M B :=
  fun s => match m s with
           | Ok (a, s') => k a s'
           | Error e => Error e
           end.

Definition ERROR {A} (e : error) : M A := fun _ => Error e.

Definition modify (g : t -> t) : M unit := fun s => Ok (tt, g s).

Definition skip : M unit := ret tt.

(** [if (c) stmt;] *)
Definition when (c : bool) (m : M unit) : M unit :=
  if c then m else skip.

Notation "m1 ;; m2" := (bind m1 (fun _ => m2))
  (at level 100, m2 at level 200, right associativity).

(** [for (iDim = 0; iDim < n; iDim++) body], over the indices in order. *)
Fixpoint for_each (l : list nat) (body : nat -> M unit) : M unit :=
  match l with
  | [] => skip
  | iDim :: l' => body iDim ;; for_each l' body
  end.

Section Constructor.

Variable params : Params.t.
Variable species : Species.t.
Variable patch : Patch.t.

(** Shorthands for the entries the constructor compares. *)
Let EM (iDim side : nat) : string := vec2_at (Params.EM_BCs params) iDim side.
Let BC (iDim side : nat) : string :=
  vec2_at (Species.boundary_conditions species) iDim side.

(** Member initialiser [isRZ( params.geometry == "3drz" )]. *)
Definition geometry_isRZ : bool := Params.geometry params =? "3drz".

(** Lines 22-38: the dimensions are copied from [params], every function
    pointer is NULL; the limits are not assigned yet. *)
Definition init : t :=
  mk geometry_isRZ (Params.nDim_particle params) (Params.nDim_field params)
     None None None None None None
     None None None None None None.

(** Absolute global values (lines 25-30). *)
Definition x_min_global : float := 0%float.
Definition x_max_global : float :=
  PrimFloat.mul (vecd_at (Params.cell_length params) 0)
                (double_of_uint (vecu_at (Params.n_space_global params) 0)).
Definition y_min_global : float := 0%float.
Definition y_max_global : float :=
  PrimFloat.mul (vecd_at (Params.cell_length params) 1)
                (double_of_uint (vecu_at (Params.n_space_global params) 1)).
Definition z_min_global : float := 0%float.
Definition z_max_global : float :=
  PrimFloat.mul (vecd_at (Params.cell_length params) 2)
                (double_of_uint (vecu_at (Params.n_space_global params) 2)).

(** Lines 42-74: limits of the local domain.  (The members [nDim_particle]
    and [isRZ] tested here hold [params.nDim_particle] and
    [geometry_isRZ].) *)
Definition define_limits : M unit :=
  (if (EM 0 0 =? "periodic") || Params.hasWindow params then
     modify (set_x (Patch.getDomainLocalMin patch 0)
                   (Patch.getDomainLocalMax patch 0))
   else
     modify (set_x (dmax x_min_global (Patch.getDomainLocalMin patch 0))
                   (dmin x_max_global (Patch.getDomainLocalMax patch 0)))) ;;
  when (1 <? Params.nDim_particle params)%nat (
    (if EM 1 0 =? "periodic" then
       modify (set_y (Patch.getDomainLocalMin patch 1)
                     (Patch.getDomainLocalMax patch 1))
     else
       modify (set_y (dmax y_min_global (Patch.getDomainLocalMin patch 1))
                     (dmin y_max_global (Patch.getDomainLocalMax patch 1)))) ;;
    when ((2 <? Params.nDim_particle params)%nat && negb geometry_isRZ) (
      if EM 2 0 =? "periodic" then
        modify (set_z (Patch.getDomainLocalMin patch 2)
                      (Patch.getDomainLocalMax patch 2))
      else
        modify (set_z (dmax z_min_global (Patch.getDomainLocalMin patch 2))
                      (dmin z_max_global (Patch.getDomainLocalMax patch 2))))).

(** The test of lines 82-83 at axis [iDim]. *)
Definition inconsistent (iDim : nat) : bool :=
  ((EM iDim 0 =? "periodic") && negb (BC iDim 0 =? "periodic"))
  || ((EM iDim 1 =? "periodic") && negb (BC iDim 1 =? "periodic")).

(** Lines 80-88: inconsistencies between EM and particle BCs. *)
Definition check_EM_particle_BCs : M unit :=
  when (negb (Particles.tracked (Species.particles species))) (
    for_each (seq 0 (Params.nDim_field params)) (fun iDim =>
      when (inconsistent iDim)
           (ERROR (PeriodicEM_requires_periodic (Species.name species) iDim)))).

(** Lines 94-99: the local pointer [remove]. *)
Definition remove : fn :=
  if PrimFloat.eqb (Species.mass species) 0%float
  then remove_photon
  else remove_particle.

(** Lines 102-119. *)
Definition Xmin_block : M unit :=
  if BC 0 0 =? "reflective" then
    when (Patch.isXmin patch) (modify (set_bc Xmin reflect_particle))
  else if BC 0 0 =? "remove" then
    when (Patch.isXmin patch) (modify (set_bc Xmin remove))
  else if BC 0 0 =? "stop" then
    when (Patch.isXmin patch) (modify (set_bc Xmin stop_particle))
  else if BC 0 0 =? "thermalize" then
    when (Patch.isXmin patch) (modify (set_bc Xmin thermalize_particle))
  else if BC 0 0 =? "periodic" then
    skip
  else
    ERROR (unknown_BC Xmin (BC 0 0)).

(** Lines 122-139. *)
Definition Xmax_block : M unit :=
  if BC 0 1 =? "reflective" then
    when (Patch.isXmax patch) (modify (set_bc Xmax reflect_particle))
  else if BC 0 1 =? "remove" then
    when (Patch.isXmax patch) (modify (set_bc Xmax remove))
  else if BC 0 1 =? "stop" then
    when (Patch.isXmax patch) (modify (set_bc Xmax stop_particle))
  else if BC 0 1 =? "thermalize" then
    when (Patch.isXmax patch) (modify (set_bc Xmax thermalize_particle))
  else if BC 0 1 =? "periodic" then
    skip
  else
    ERROR (unknown_BC Xmax (BC 0 1)).

(** Lines 144-160. *)
Definition Ymin_block : M unit :=
  if BC 1 0 =? "reflective" then
    when (Patch.isYmin patch) (modify (set_bc Ymin reflect_particle))
  else if BC 1 0 =? "remove" then
    when (Patch.isYmin patch) (modify (set_bc Ymin remove))
  else if BC 1 0 =? "stop" then
    when (Patch.isYmin patch) (modify (set_bc Ymin stop_particle))
  else if BC 1 0 =? "thermalize" then
    when (Patch.isYmin patch) (modify (set_bc Ymin thermalize_particle))
  else if BC 1 0 =? "periodic" then
    skip
  else
    ERROR (unknown_BC Ymin (BC 1 0)).

(** Lines 163-179. *)
Definition Ymax_block : M unit :=
  if BC 1 1 =? "reflective" then
    when (Patch.isYmax patch) (modify (set_bc Ymax reflect_particle))
  else if BC 1 1 =? "remove" then
    when (Patch.isYmax patch) (modify (set_bc Ymax remove))
  else if BC 1 1 =? "stop" then
    when (Patch.isYmax patch) (modify (set_bc Ymax stop_particle))
  else if BC 1 1 =? "thermalize" then
    when (Patch.isYmax patch) (modify (set_bc Ymax thermalize_particle))
  else if BC 1 1 =? "periodic" then
    skip
  else
    ERROR (unknown_BC Ymax (BC 1 1)).

(** Lines 183-196: no [thermalize] branch. *)
Definition Zmin_block : M unit :=
  if BC 2 0 =? "reflective" then
    when (Patch.isZmin patch) (modify (set_bc Zmin reflect_particle))
  else if BC 2 0 =? "remove" then
    when (Patch.isZmin patch) (modify (set_bc Zmin remove))
  else if BC 2 0 =? "stop" then
    when (Patch.isZmin patch) (modify (set_bc Zmin stop_particle))
  else if BC 2 0 =? "periodic" then
    skip
  else
    ERROR (unknown_BC Zmin (BC 2 0)).

(** Lines 198-211: no [thermalize] branch. *)
Definition Zmax_block : M unit :=
  if BC 2 1 =? "reflective" then
    when (Patch.isZmax patch) (modify (set_bc Zmax reflect_particle))
  else if BC 2 1 =? "remove" then
    when (Patch.isZmax patch) (modify (set_bc Zmax remove))
  else if BC 2 1 =? "stop" then
    when (Patch.isZmax patch) (modify (set_bc Zmax stop_particle))
  else if BC 2 1 =? "periodic" then
    skip
  else
    ERROR (unknown_BC Zmax (BC 2 1)).

(** Lines 243-256: the outer radial face in Rz geometry.  The address
    stored is [&remove_particle], not the local pointer [remove]. *)
Definition Rmax_block : M unit :=
  if BC 1 1 =? "remove" then
    when (Patch.isYmax patch) (modify (set_bc Ymax remove_particle))
  else
    ERROR only_remove_in_Rz.

(** Lines 142-257. *)
Definition transverse_blocks : M unit :=
  if (1 <? Params.nDim_particle params)%nat && negb geometry_isRZ then
    Ymin_block ;;
    Ymax_block ;;
    when (2 <? Params.nDim_particle params)%nat (
      Zmin_block ;;
      Zmax_block)
  else if geometry_isRZ then
    Rmax_block
  else
    skip.

(** The constructor body, lines 40-257. *)
Definition body : M unit :=
  define_limits ;;
  check_EM_particle_BCs ;;
  Xmin_block ;;
  Xmax_block ;;
  transverse_blocks.

(** [PartBoundCond::PartBoundCond( params, species, patch )]: the
    constructed object, or the error that aborted the run. *)
Definition PartBoundCond : result t :=
  match body init with
  | Ok (_, s) => Ok s
  | Error e => Error e
  end.

End Constructor.

End PartBoundCond.

(** ** [main]: the mirror-domain setup and the time loop *)

Module SmileiMPI.
Record t : Type := mk {
  getRank : Z;
  isMaster : bool
}.
End SmileiMPI.

Module Checkpoint.
Record t : Type := mk {
  this_run_start_step : N;
  (** [exit_asap] is raised by [dump]; the member is read in the loop
      condition, here as a function of the step at which it is read. *)
  exit_asap : N -> bool
}.
End Checkpoint.

Module Domain.
(** The two rank tables of the mirror domain ([int] entries). *)
Record t : Type := mk {
  additional_patches_ranks : list Z;
  missing_patches_ranks : list Z
}.

Definition set_additional (idx : nat) (r : Z) (d : t) : t :=
  mk (<[idx := r]> (additional_patches_ranks d)) (missing_patches_ranks d).

Definition set_missing (idx : nat) (r : Z) (d : t) : t :=
  mk (additional_patches_ranks d) (<[idx := r]> (missing_patches_ranks d)).
End Domain.

(** The calls [main] issues, in the names of the source.  The callees'
    sources are not part of this development: a call is recorded, its
    effect on patches and fields is not modelled. *)
Inductive call : Type :=
| identify_additional_patches
| identify_missing_patches
| applyCollisions
| dynamics
| sumDensities
| applyAntennas
| MPI_Barrier
| patchedToCartesian
| solveMaxwell
| cartesianToPatches
| finalize_and_sort_parts
| finalize_sync_and_bc_fields
| runAllDiags
| movWindow_restart
| operate
| movWindow_update
| checkpoint_dump
| omp_barrier
| loadBal_restart
| load_balance
| loadBal_update
| print_timestep
| timers_consolidate.

Definition call_eqb (a b : call) : bool :=
  match a, b with
  | identify_additional_patches, identify_additional_patches
  | identify_missing_patches, identify_missing_patches
  | applyCollisions, applyCollisions
  | dynamics, dynamics
  | sumDensities, sumDensities
  | applyAntennas, applyAntennas
  | MPI_Barrier, MPI_Barrier
  | patchedToCartesian, patchedToCartesian
  | solveMaxwell, solveMaxwell
  | cartesianToPatches, cartesianToPatches
  | finalize_and_sort_parts, finalize_and_sort_parts
  | finalize_sync_and_bc_fields, finalize_sync_and_bc_fields
  | runAllDiags, runAllDiags
  | movWindow_restart, movWindow_restart
  | operate, operate
  | movWindow_update, movWindow_update
  | checkpoint_dump, checkpoint_dump
  | omp_barrier, omp_barrier
  | loadBal_restart, loadBal_restart
  | load_balance, load_balance
  | loadBal_update, loadBal_update
  | print_timestep, print_timestep
  | timers_consolidate, timers_consolidate => true
  | _, _ => false
  end.

Module Smilei.

Local Open Scope list_scope.

(** What the loop updates: the two simulation times and the step counter
    ([unsigned int], wrapping at 2^32), next to the mirror domain. *)
Record state : Type := mk {
  time_prim : float;
  time_dual : float;
  itime : N;
  domain : Domain.t
}.

Definition uint_max_plus_1 : N := 2 ^ 32.

Section Main.

Variable params : Params.t.
Variable smpi : SmileiMPI.t.
Variable checkpoint : Checkpoint.t.

(** The tables [domain.identify_additional_patches( &smpi, vecPatches )]
    and [domain.identify_missing_patches( &smpi, vecPatches, params )]
    leave in the domain. *)
Variable identify_additional : Domain.t -> Domain.t.
Variable identify_missing : Domain.t -> Domain.t.

(** [for (int idx=lo ; idx<hi ; idx++) domain.additional_patches_ranks[idx] = r;]
    (a write outside the vector is undefined in C++; here it is dropped). *)
Definition fill_additional (lo hi : nat) (r : Z) (d : Domain.t) : Domain.t :=
  foldl (fun d idx => Domain.set_additional idx r d) d (seq lo (hi - lo)).

Definition fill_missing (lo hi : nat) (r : Z) (d : Domain.t) : Domain.t :=
  foldl (fun d idx => Domain.set_missing idx r d) d (seq lo (hi - lo)).

(** Lines 268-333: the rectangular partition chosen before the loop. *)
Definition identify_patches (d : Domain.t) : list call * Domain.t :=
  let d := identify_additional d in
  let d :=
    if (SmileiMPI.getRank smpi =? 0)%Z then
      fill_additional 8 12 1 (fill_additional 4 8 2 (fill_additional 0 4 3 d))
    else if (SmileiMPI.getRank smpi =? 1)%Z then
      fill_additional 0 8 2 d
    else if (SmileiMPI.getRank smpi =? 3)%Z then
      fill_additional 0 8 2 d
    else d in
  let d := identify_missing d in
  let d :=
    if (SmileiMPI.getRank smpi =? 1)%Z then
      fill_missing 0 4 0 d
    else if (SmileiMPI.getRank smpi =? 2)%Z then
      fill_missing 12 20 3 (fill_missing 4 12 1 (fill_missing 0 4 0 d))
    else if (SmileiMPI.getRank smpi =? 3)%Z then
      fill_missing 0 4 0 d
    else d in
  ([identify_additional_patches; identify_missing_patches; MPI_Barrier], d).

(** Line 344: [(itime <= params.n_time) && (!checkpoint.exit_asap)]. *)
Definition loop_condition (st : state) : bool :=
  (itime st <=? Params.n_time params)%N
  && negb (Checkpoint.exit_asap checkpoint (itime st)).

(** Line 386: [time_dual > params.time_fields_frozen]. *)
Definition fields_not_frozen (t_dual : float) : bool :=
  PrimFloat.ltb (Params.time_fields_frozen params) t_dual.

(** Lines 346-441: one iteration, as the calls issued in program order and
    the state it leaves. *)
Definition iteration (st : state) : list call * state :=
  let t_prim := PrimFloat.add (time_prim st) (Params.timestep params) in
  let t_dual := PrimFloat.add (time_dual st) (Params.timestep params) in
  ( [applyCollisions; dynamics; sumDensities; applyAntennas; MPI_Barrier]
    ++ (if fields_not_frozen t_dual then
          [MPI_Barrier; patchedToCartesian; MPI_Barrier;
           solveMaxwell; cartesianToPatches]
        else [])
    ++ [finalize_and_sort_parts; finalize_sync_and_bc_fields;
        runAllDiags;
        movWindow_restart; operate; movWindow_update;
        checkpoint_dump; omp_barrier]
    ++ (if Params.has_load_balancing params then
          if Params.theTimeIsNow params (itime st) then
            [loadBal_restart; load_balance; loadBal_update]
          else []
        else [])
    ++ (if SmileiMPI.isMaster smpi && Params.printNow params (itime st)
        then [print_timestep] else [])
    ++ (if Params.printNow params (itime st)
        then [timers_consolidate; omp_barrier] else []),
    mk t_prim t_dual ((itime st + 1) mod uint_max_plus_1)%N (domain st) ).

(** Lines 343-443: the [while] loop, run for at most [fuel] iterations. *)
Fixpoint time_loop (fuel : nat) (st : state) : list call * state :=
  match fuel with
  | O => ([], st)
  | S fuel' =>
      if loop_condition st then
        let (calls, st') := iteration st in
        let (rest, st'') := time_loop fuel' st' in
        (calls ++ rest, st'')
      else ([], st)
  end.

(** Lines 268-445 from the times and the domain reached at line 268:
    partition, then [itime = checkpoint.this_run_start_step+1] and the
    loop. *)
Definition run (fuel : nat) (t_prim t_dual : float) (d : Domain.t)
  : list call * state :=
  let (setup, d') := identify_patches d in
  let (calls, st) :=
    time_loop fuel
      (mk t_prim t_dual
          ((Checkpoint.this_run_start_step checkpoint + 1) mod uint_max_plus_1)%N
          d') in
  (setup ++ calls, st).

End Main.

(** *** Properties of a sequence of calls *)

(** The operations of the per-step chain of the driver. *)
Definition in_chain (c : call) : bool :=
  match c with
  | dynamics | sumDensities
  | patchedToCartesian | solveMaxwell | cartesianToPatches
  | finalize_sync_and_bc_fields | runAllDiags | operate | load_balance => true
  | _ => false
  end.

(** The three mirror-domain phases. *)
Definition mirror_phase (c : call) : bool :=
  match c with
  | patchedToCartesian | solveMaxwell | cartesianToPatches => true
  | _ => false
  end.

(** A call that (re)computes the rectangular partition. *)
Definition recomputes_partition (c : call) : bool :=
  match c with
  | identify_additional_patches | identify_missing_patches => true
  | _ => false
  end.

Definition occurs (c : call) (tr : list call) : bool :=
  existsb (call_eqb c) tr.

(** Every [a] followed later by a [b] has a global barrier in between. *)
Definition barrier_separates (a b : call) (tr : list call) : Prop :=
  forall i j : nat, tr !! i = Some a -> tr !! j = Some b -> (i < j)%nat ->
    exists k : nat, (i < k < j)%nat /\ tr !! k = Some MPI_Barrier.

(** A global barrier is issued before every [a]. *)
Definition barrier_before (a : call) (tr : list call) : Prop :=
  forall i : nat, tr !! i = Some a ->
    exists k : nat, (k < i)%nat /\ tr !! k = Some MPI_Barrier.

(** A global barrier is issued after every [a]. *)
Definition barrier_after (a : call) (tr : list call) : Prop :=
  forall i : nat, tr !! i = Some a ->
    exists k : nat, (i < k)%nat /\ tr !! k = Some MPI_Barrier.

(** Every [load_balance] is followed by a recomputation of the partition. *)
Definition partition_recomputed_after_load_balance (tr : list call) : Prop :=
  forall i : nat, tr !! i = Some load_balance ->
    exists (k : nat) (c : call),
      (i < k)%nat /\ tr !! k = Some c /\ recomputes_partition c = true.

End Smilei.

(** ** Dispatch summary and statement-level specifications *)

Import PartBoundCond.

(** The value configured for face [f] of a species. *)
Definition configured (species : Species.t) (f : face) : string :=
  vec2_at (Species.boundary_conditions species) (face_axis f) (face_side f).

(** Whether the Cartesian block of face [f] is executed (lines 142, 182). *)
Definition face_active (params : Params.t) (f : face) : bool :=
  match f with
  | Xmin | Xmax => true
  | Ymin | Ymax =>
      (1 <? Params.nDim_particle params)%nat && negb (geometry_isRZ params)
  | Zmin | Zmax =>
      (1 <? Params.nDim_particle params)%nat && negb (geometry_isRZ params)
      && (2 <? Params.nDim_particle params)%nat
  end.

(** The assignments [bc_<face> = fn] present in the constructor, each with
    the tests that guard it. *)
Definition installs (params : Params.t) (species : Species.t) (patch : Patch.t)
    (f : face) (p : fn) : Prop :=
  Patch.on_boundary patch f = true /\
  ((face_active params f = true /\
    ((configured species f = "reflective" /\ p = reflect_particle) \/
     (configured species f = "remove" /\ p = remove species) \/
     (configured species f = "stop" /\ p = stop_particle) \/
     (configured species f = "thermalize" /\ p = thermalize_particle
        /\ face_axis f <> 2%nat))) \/
   (f = Ymax /\ geometry_isRZ params = true /\
    configured species f = "remove" /\ p = remove_particle)).

(** The values for which the dispatch of face [f] has a branch. *)
Definition has_branch (f : face) (v : string) : bool :=
  (v =? "reflective") || (v =? "remove") || (v =? "stop")
  || ((v =? "thermalize") && negb (face_axis f =? 2)%nat)
  || (v =? "periodic").

(** Partial correctness of a statement: from [P], if it completes, [Q]. *)
Definition triple (P : t -> Prop) (m : M unit) (Q : t -> Prop) : Prop :=
  forall s u s', P s -> m s = Ok (u, s') -> Q s'.

(** Every error the statement can abort with satisfies [E]. *)
Definition raises_only (E : error -> Prop) (m : M unit) : Prop :=
  forall s e, m s = Error e -> E e.

(** The first axis below [n] at which the consistency test fires. *)
Definition first_inconsistent (params : Params.t) (species : Species.t)
  : option nat :=
  find (inconsistent params species) (seq 0 (Params.nDim_field params)).

(** The condition of the validity rule at axis [iDim]: on one of the two
    sides the EM boundary is periodic and the species boundary is not. *)
Definition periodic_mismatch (params : Params.t) (species : Species.t)
    (iDim : nat) : Prop :=
  (vec2_at (Params.EM_BCs params) iDim 0 = "periodic"
   /\ vec2_at (Species.boundary_conditions species) iDim 0 <> "periodic")
  \/ (vec2_at (Params.EM_BCs params) iDim 1 = "periodic"
      /\ vec2_at (Species.boundary_conditions species) iDim 1 <> "periodic").

(** What each error tells about the configuration. *)
Definition error_justified (params : Params.t) (species : Species.t)
    (e : error) : Prop :=
  match e with
  | PeriodicEM_requires_periodic n iDim =>
      n = Species.name species
      /\ Particles.tracked (Species.particles species) = false
      /\ (iDim < Params.nDim_field params)%nat
      /\ inconsistent params species iDim = true
  | unknown_BC f v =>
      face_active params f = true
      /\ v = configured species f
      /\ has_branch f v = false
  | only_remove_in_Rz =>
      geometry_isRZ params = true /\ configured species Ymax <> "remove"
  end.

(** ** Configurations on which the model is run *)

Module Deck.

Definition absorbing : list string := ["silver-muller"; "silver-muller"].
Definition periodic : list string := ["periodic"; "periodic"].

(** Cells of length 0.5, 16 cells per axis (global extent 8), time step
    0.25, fields frozen up to time 0.5, load balancing at even steps. *)
Definition deck (geometry : string) (nDim_particle nDim_field : nat)
    (EM_BCs : list (list string)) (hasWindow : bool) : Params.t :=
  Params.mk geometry nDim_particle nDim_field
            [0.5%float; 0.5%float; 0.5%float] [16%N; 16%N; 16%N]
            EM_BCs hasWindow
            0.25%float 4%N 0.5%float
            true (fun itime => (itime mod 2 =? 0)%N) (fun _ => false).

Definition deck_3d : Params.t :=
  deck "3d3v" 3 3 [absorbing; absorbing; absorbing] false.
Definition deck_2d : Params.t :=
  deck "2d3v" 2 2 [absorbing; absorbing] false.
Definition deck_2d_window : Params.t :=
  deck "2d3v" 2 2 [absorbing; absorbing] true.
Definition deck_2d_periodic_y : Params.t :=
  deck "2d3v" 2 2 [absorbing; periodic] false.
Definition deck_rz : Params.t :=
  deck "3drz" 3 2 [absorbing; absorbing] false.

Definition species_of (mass : float) (bcs : list (list string)) : Species.t :=
  Species.mk "sp" mass bcs (Particles.mk false).

Definition electron (bcs : list (list string)) : Species.t :=
  species_of 1%float bcs.
Definition photon (bcs : list (list string)) : Species.t :=
  species_of 0%float bcs.

(** A patch covering [4, 12] on every axis with all its faces on the
    global boundary, and one covering [2, 4] with none. *)
Definition boundary_patch : Patch.t :=
  Patch.mk (fun _ => 4%float) (fun _ => 12%float)
           true true true true true true.
Definition interior_patch : Patch.t :=
  Patch.mk (fun _ => 2%float) (fun _ => 4%float)
           false false false false false false.

End Deck.

(** A global barrier between each consecutive pair of the mirror-domain
    phases, one before the first phase and one after the last. *)
Definition barriers_around_mirror_phases (tr : list call) : Prop :=
  Smilei.barrier_separates patchedToCartesian solveMaxwell tr
  /\ Smilei.barrier_separates solveMaxwell cartesianToPatches tr
  /\ Smilei.barrier_before patchedToCartesian tr
  /\ Smilei.barrier_after cartesianToPatches tr.

Module Run.

(** Rank 0 of a run started from step 0 that is never asked to exit. *)
Definition rank0 : SmileiMPI.t := SmileiMPI.mk 0 true.
Definition from_scratch : Checkpoint.t := Checkpoint.mk 0 (fun _ => false).

(** Mirror-domain tables of 12 and 20 entries. *)
Definition tables : Domain.t := Domain.mk (repeat 0%Z 12) (repeat 0%Z 20).

(** The state at the head of the loop when [time_dual] is [t_dual]. *)
Definition at_time (t_dual : float) (itime : N) : Smilei.state :=
  Smilei.mk 0%float t_dual itime tables.

(** The calls of the iteration entered with [time_dual] at 0.5: the time
    advances to 0.75, past the threshold 0.5, so the solve runs. *)
Definition solve_step_calls : list call :=
  fst (Smilei.iteration Deck.deck_3d rank0 (at_time 0.5%float 2%N)).

(** The calls of [main] from line 268 on in a run of four steps, with
    load balancing at steps 2 and 4. *)
Definition four_steps_calls : list call :=
  fst (Smilei.run Deck.deck_3d rank0 from_scratch (fun d => d) (fun d => d)
                  4 0%float 0.125%float tables).

End Run.

(** ** The constructor as a table

    What the dispatch stores and which error comes first, written as
    functions of the configuration. *)

Definition all_faces : list face := [Xmin; Xmax; Ymin; Ymax; Zmin; Zmax].

(** The function the Cartesian chain of face [f] stores for the configured
    value: the z chains have no [thermalize] branch. *)
Definition cartesian_fn (species : Species.t) (f : face) : option fn :=
  let v := configured species f in
  if v =? "reflective" then Some reflect_particle
  else if v =? "remove" then Some (remove species)
  else if v =? "stop" then Some stop_particle
  else if (v =? "thermalize") && negb (face_axis f =? 2)%nat
       then Some thermalize_particle
  else None.

(** The function stored on a face of the global boundary: by the Cartesian
    chain when the block of the face is executed, by the Rz branch on the
    outer radial face. *)
Definition dispatch_fn (params : Params.t) (species : Species.t) (f : face)
  : option fn :=
  if face_active params f then cartesian_fn species f
  else if face_eqb f Ymax && geometry_isRZ params
          && (configured species Ymax =? "remove")
       then Some remove_particle
  else None.

Definition expected_bc (params : Params.t) (species : Species.t)
    (patch : Patch.t) (f : face) : option fn :=
  if Patch.on_boundary patch f then dispatch_fn params species f else None.

(** The first check that fails, in the order of the constructor: the
    consistency loop, the faces whose block is executed from Xmin to Zmax,
    the outer radial face in Rz geometry. *)
Definition first_error (params : Params.t) (species : Species.t)
  : option error :=
  match (if Particles.tracked (Species.particles species) then None
         else first_inconsistent params species) with
  | Some iDim => Some (PeriodicEM_requires_periodic (Species.name species) iDim)
  | None =>
      match find (fun f => negb (has_branch f (configured species f)))
                 (List.filter (face_active params) all_faces) with
      | Some f => Some (unknown_BC f (configured species f))
      | None =>
          if geometry_isRZ params
             && negb (configured species Ymax =? "remove")
          then Some only_remove_in_Rz
          else None
      end
  end.

(** The effect of the Cartesian block of face [f] when it completes. *)
Definition block_effect (species : Species.t) (patch : Patch.t) (f : face)
    (s : t) : t :=
  if Patch.on_boundary patch f then
    match cartesian_fn species f with
    | Some p => set_bc f p s
    | None => s
    end
  else s.

(** The object once the limits are defined (the limits never abort). *)
Definition limits_defined (params : Params.t) (patch : Patch.t) : t :=
  match define_limits params patch (init params) with
  | Ok (_, s) => s
  | Error _ => init params
  end.

Module TrackedDeck.

(** A tracked species of mass 1. *)
Definition tracked_electron (bcs : list (list string)) : Species.t :=
  Species.mk "sp" 1%float bcs (Particles.mk true).

(** A patch covering [-2, 12] on every axis, beyond the global extent
    [0, 8] on both sides, with all its faces on the global boundary. *)
Definition covering_patch : Patch.t :=
  Patch.mk (fun _ => (-2)%float) (fun _ => 12%float)
           true true true true true true.

End TrackedDeck.

(** ** [main] as a whole and [execute_test_mode]

    From line 125 on: the objects created before ([smpi], [params],
    [vecPatches], [timers], [checkpoint], [simWindow], the tables) exist.
    A call issued outside the loop is a [setup_call]; the calls shared with
    the loop keep their name. *)

Module Main.

Local Open Scope list_scope.

(** Further values [main] reads: [smpi.test_mode], members of [params],
    [vecPatches.isRhoNull(&smpi)] and [simWindow->getNmoved()] (an
    unsigned count of cells, like the step counter). *)
Record t : Type := mk {
  test_mode : bool;
  restart : bool;
  solve_poisson : bool;
  isRhoNull : bool;
  global_factor : list N;
  print_expected_disk_usage : bool;
  getNmoved : N
}.

Inductive setup_call : Type :=
| readPatchDistribution
| createVector (itime : Z) (n_moved : option Z)
| restartAll
| RadiationTables_initParams
| RadiationTables_compute_tables
| RadiationTables_output_tables
| MultiphotonBreitWheelerTables_initialization
| MultiphotonBreitWheelerTables_compute_tables
| MultiphotonBreitWheelerTables_output_tables
| initAllDiags
| computeCharge
| solvePoisson
| applyExternalFields
| printNumberOfParticles
| timers_reboot
| domain_build
| timers_global_reboot
| check_memory_consumption
| check_expected_disk_usage
| params_cleanup
| print_timestep_headers
| smpi_barrier
| timers_global_update
| timers_profile
| domain_clean
| vecPatches_close
| delete_simWindow
| closePython.

Inductive main_call : Type :=
| setup (c : setup_call)
| step (c : call).

Definition is_step (c : main_call) : bool :=
  match c with step _ => true | setup _ => false end.

(** The value of an [int] initialised from an [unsigned int]. *)
Definition int_of_uint (n : N) : Z :=
  let z := Z.of_N (n mod Smilei.uint_max_plus_1) in
  if (z <? 2 ^ 31)%Z then z else (z - 2 ^ 32)%Z.

Section Program.

Variable env : t.
Variable params : Params.t.
Variable smpi : SmileiMPI.t.
Variable checkpoint : Checkpoint.t.
Variable identify_additional : Domain.t -> Domain.t.
Variable identify_missing : Domain.t -> Domain.t.

(** [checkpoint.this_run_start_step+1], in [unsigned int]. *)
Definition start_step_plus_1 : N :=
  ((Checkpoint.this_run_start_step checkpoint + 1) mod Smilei.uint_max_plus_1)%N.

(** Lines 487-516. *)
Definition execute_test_mode : Z * list setup_call :=
  let itime := if restart env then int_of_uint start_step_plus_1 else 0%Z in
  let moving_window_movement :=
    if restart env then int_of_uint (getNmoved env) else 0%Z in
  ( 0%Z,
    (if restart env then [readPatchDistribution] else [])
    ++ [createVector itime (Some moving_window_movement)]
    ++ (if restart env then [restartAll] else [])
    ++ (if print_expected_disk_usage env
        then [check_expected_disk_usage] else [])
    ++ [params_cleanup; delete_simWindow; closePython] ).

(** Lines 222-225: [global_factor *= params.global_factor[iDim]] over the
    field dimensions, in [unsigned int]. *)
Definition global_factor_product : N :=
  fold_left (fun acc iDim =>
               (acc * vecu_at (global_factor env) iDim
                mod Smilei.uint_max_plus_1)%N)
            (seq 0 (Params.nDim_field params)) 1%N.

(** The three calls on each of the two tables (e.g. lines 149-158). *)
Definition compute_tables : list main_call :=
  [setup RadiationTables_initParams;
   setup RadiationTables_compute_tables;
   setup RadiationTables_output_tables;
   setup MultiphotonBreitWheelerTables_initialization;
   setup MultiphotonBreitWheelerTables_compute_tables;
   setup MultiphotonBreitWheelerTables_output_tables].

(** Lines 131-213: patches, particles and fields, and the two times. *)
Definition initialize : list main_call * (float * float) :=
  if restart env then
    ( [setup readPatchDistribution;
       setup (createVector (Z.of_N start_step_plus_1)
                           (Some (Z.of_N (getNmoved env))));
       setup restartAll]
      ++ compute_tables
      ++ [setup initAllDiags],
      ( PrimFloat.mul
          (double_of_uint (Checkpoint.this_run_start_step checkpoint))
          (Params.timestep params),
        PrimFloat.mul
          (PrimFloat.add
             (double_of_uint (Checkpoint.this_run_start_step checkpoint))
             0.5%float)
          (Params.timestep params) ) )
  else
    ( [setup (createVector 0 None);
       setup computeCharge;
       step sumDensities]
      ++ compute_tables
      ++ [step applyAntennas]
      ++ (if negb (isRhoNull env) && solve_poisson env
          then [setup solvePoisson] else [])
      ++ [setup applyExternalFields;
          step dynamics;
          step sumDensities;
          step finalize_and_sort_parts;
          setup initAllDiags;
          step runAllDiags],
      ( 0%float, PrimFloat.mul 0.5%float (Params.timestep params) ) ).

(** Lines 125-478: the return code and the calls, the loop being run for
    at most [fuel] iterations from the domain [d] that [domain.build]
    leaves. *)
Definition main (fuel : nat) (d : Domain.t) : Z * list main_call :=
  if test_mode env then
    (0%Z, map setup (snd execute_test_mode))
  else
    let (init_calls, times) := initialize in
    let (partition_calls, d') :=
      Smilei.identify_patches smpi identify_additional identify_missing d in
    let (loop_calls, _) :=
      Smilei.time_loop params smpi checkpoint fuel
        (Smilei.mk (fst times) (snd times) start_step_plus_1 d') in
    ( 0%Z,
      init_calls
      ++ [setup printNumberOfParticles; setup timers_reboot;
          setup domain_build;
          setup timers_global_reboot;
          setup check_memory_consumption;
          setup check_expected_disk_usage;
          setup params_cleanup]
      ++ map step partition_calls
      ++ (if SmileiMPI.isMaster smpi
          then [setup print_timestep_headers] else [])
      ++ map step loop_calls
      ++ [setup smpi_barrier; setup timers_global_update;
          setup timers_profile]
      ++ (if (global_factor_product =? 1)%N then [] else [setup domain_clean])
      ++ [setup vecPatches_close; setup smpi_barrier;
          setup delete_simWindow; setup closePython] ).

End Program.

End Main.

(** How many times [c] is issued. *)
Definition count (c : call) (tr : list call) : nat :=
  length (List.filter (call_eqb c) tr).

(** The loop condition of line 344 at step [i]. *)
Definition continues (params : Params.t) (checkpoint : Checkpoint.t) (i : N)
  : bool :=
  (i <=? Params.n_time params)%N && negb (Checkpoint.exit_asap checkpoint i).

(** Every call but the status line printed by the master. *)
Definition not_print (c : call) : bool := negb (call_eqb c print_timestep).

Module MainDeck.

(** A deck whose [n_time] is the largest [unsigned int]. *)
Definition deck_uint_max : Params.t :=
  Params.mk "2d3v" 2 2 [0.5%float; 0.5%float; 0.5%float] [16%N; 16%N; 16%N]
            [Deck.absorbing; Deck.absorbing] false
            0.25%float 4294967295%N 0.5%float
            false (fun _ => false) (fun _ => false).

(** A run that is asked to exit when step 3 is reached. *)
Definition exit_at_3 : Checkpoint.t :=
  Checkpoint.mk 0 (fun i => (i =? 3)%N).

(** Normal mode, fresh start, with the given [global_factor]. *)
Definition fresh (global_factor : list N) : Main.t :=
  Main.mk false false true false global_factor false 0%N.

(** Test mode on a restart, the window having moved by 5 cells. *)
Definition test_restart : Main.t :=
  Main.mk true true true false [1%N; 1%N] true 5%N.

End MainDeck.

Module FrozenDeck.

(** A deck whose fields are frozen up to time [+oo]. *)
Definition deck_frozen_forever : Params.t :=
  Params.mk "2d3v" 2 2 [0.5%float; 0.5%float; 0.5%float] [16%N; 16%N; 16%N]
            [Deck.absorbing; Deck.absorbing] false
            0.25%float 4%N PrimFloat.infinity
            false (fun _ => false) (fun _ => false).

End FrozenDeck.



Module OneSidedDeck.



End OneSidedDeck.

(** The calls [execute_test_mode] can issue. *)
Definition test_mode_only (c : Main.main_call) : bool :=
  match c with
  | Main.setup Main.readPatchDistribution
  | Main.setup (Main.createVector _ _)
  | Main.setup Main.restartAll
  | Main.setup Main.check_expected_disk_usage
  | Main.setup Main.params_cleanup
  | Main.setup Main.delete_simWindow
  | Main.setup Main.closePython => true
  | _ => false
  end.

(** * Theorems *)

(** ** Statement rules *)

Lemma bind_Ok_inv {A B} (m : M A) (k : A -> M B) s b s' :
  bind m k s = Ok (b, s') ->
  exists a s1, m s = Ok (a, s1) /\ k a s1 = Ok (b, s').
Proof.
  unfold bind. destruct (m s) as [[a s1]|e]; [|discriminate].
  intros H. exists a, s1. split; [reflexivity | exact H].
Qed.

Lemma bind_Error_inv {A B} (m : M A) (k : A -> M B) s e :
  bind m k s = Error e ->
  m s = Error e \/ exists a s1, m s = Ok (a, s1) /\ k a s1 = Error e.
Proof.
  unfold bind. destruct (m s) as [[a s1]|e'].
  - intros H. right. exists a, s1. split; [reflexivity | exact H].
  - intros H. left. inversion H. reflexivity.
Qed.

Lemma triple_bind P Q R (m k : M unit) :
  triple P m Q -> triple Q k R -> triple P (m ;; k) R.
Proof.
  intros Hm Hk s u s' HP H.
  apply bind_Ok_inv in H as (a & s1 & H1 & H2).
  eapply Hk; [|exact H2]. eapply Hm; [exact HP | exact H1].
Qed.

Lemma triple_if P Q (c : bool) (m1 m2 : M unit) :
  (c = true -> triple P m1 Q) -> (c = false -> triple P m2 Q) ->
  triple P (if c then m1 else m2) Q.
Proof. destruct c; auto. Qed.

Lemma triple_skip P : triple P skip P.
Proof. intros s u s' HP H. inversion H; subst. exact HP. Qed.

Lemma triple_when P (c : bool) (m : M unit) :
  (c = true -> triple P m P) -> triple P (when c m) P.
Proof. intros H. unfold when. apply triple_if; [exact H | intros _; apply triple_skip]. Qed.

Lemma triple_modify (P Q : t -> Prop) (g : t -> t) :
  (forall s, P s -> Q (g s)) -> triple P (modify g) Q.
Proof. intros Hg s u s' HP H. inversion H; subst. apply Hg, HP. Qed.

Lemma triple_ERROR P Q e : triple P (ERROR e) Q.
Proof. intros s u s' _ H. discriminate H. Qed.

Lemma triple_for_each P (l : list nat) (body : nat -> M unit) :
  (forall i, triple P (body i) P) -> triple P (for_each l body) P.
Proof.
  intros Hb. induction l as [|i l IH]; simpl.
  - apply triple_skip.
  - eapply triple_bind; [apply Hb | exact IH].
Qed.

Lemma raises_bind E (m k : M unit) :
  raises_only E m -> raises_only E k -> raises_only E (m ;; k).
Proof.
  intros Hm Hk s e H.
  apply bind_Error_inv in H as [H | (a & s1 & _ & H)]; eauto.
Qed.

Lemma raises_if E (c : bool) (m1 m2 : M unit) :
  (c = true -> raises_only E m1) -> (c = false -> raises_only E m2) ->
  raises_only E (if c then m1 else m2).
Proof. destruct c; auto. Qed.

Lemma raises_skip E : raises_only E skip.
Proof. intros s e H. discriminate H. Qed.

Lemma raises_modify E g : raises_only E (modify g).
Proof. intros s e H. discriminate H. Qed.

Lemma raises_when E (c : bool) (m : M unit) :
  (c = true -> raises_only E m) -> raises_only E (when c m).
Proof. intros H. unfold when. apply raises_if; [exact H | intros _; apply raises_skip]. Qed.

Lemma raises_ERROR (E : error -> Prop) e : E e -> raises_only E (ERROR e).
Proof. intros He s e' H. inversion H; subst. exact He. Qed.

Lemma raises_for_each E (l : list nat) (body : nat -> M unit) :
  (forall i, In i l -> raises_only E (body i)) -> raises_only E (for_each l body).
Proof.
  induction l as [|i l IH]; simpl; intros Hb.
  - apply raises_skip.
  - apply raises_bind; [apply Hb; left; reflexivity|].
    apply IH. intros j Hj. apply Hb. right. exact Hj.
Qed.

(** ** Tactics for the dispatch blocks *)

Ltac string_tests :=
  repeat match goal with
         | H : (_ =? _)%string = true |- _ => apply String.eqb_eq in H
         | H : (_ =? _)%string = false |- _ => apply String.eqb_neq in H
         end.

Ltac close_case :=
  solve [ repeat split;
          first [ assumption | reflexivity | discriminate | (simpl; lia) ] ].

Ltac pick_branch :=
  first [ left; close_case
        | right; left; close_case
        | right; right; left; close_case
        | right; right; right; close_case ].

(** One guarded assignment [bc_<face> = p]: [Hset] is the preservation
    hypothesis, [active] proves that the block of the face is executed. *)
Ltac install_case Hset active :=
  let s := fresh "s" in
  let Hs := fresh "Hs" in
  intros s Hs; apply Hset;
  [ string_tests; split;
    [ simpl; assumption
    | left; split; [active | unfold configured; simpl; pick_branch] ]
  | exact Hs ].

Ltac cartesian_block Hset active :=
  repeat (apply triple_if; intros ?);
  try apply triple_ERROR; try apply triple_skip;
  apply triple_modify; install_case Hset active.

Ltac no_branch :=
  unfold has_branch; simpl;
  repeat match goal with
         | H : (_ =? _)%string = false |- _ => rewrite H
         end;
  rewrite ?andb_false_r; reflexivity.

Ltac cartesian_block_raises active :=
  repeat (apply raises_if; intros ?);
  try apply raises_modify; try apply raises_skip;
  apply raises_ERROR; simpl;
  split; [active | split; [reflexivity | no_branch]].

(** ** The dispatch blocks preserve what every guarded assignment preserves *)

Section Dispatch.

Variable params : Params.t.
Variable species : Species.t.
Variable patch : Patch.t.
Variable I : t -> Prop.

Hypothesis I_set_bc :
  forall f p s, installs params species patch f p -> I s -> I (set_bc f p s).

Lemma Xmin_block_preserves : triple I (Xmin_block species patch) I.
Proof. unfold Xmin_block. cartesian_block I_set_bc ltac:(reflexivity). Qed.

Lemma Xmax_block_preserves : triple I (Xmax_block species patch) I.
Proof. unfold Xmax_block. cartesian_block I_set_bc ltac:(reflexivity). Qed.

Lemma Ymin_block_preserves :
  face_active params Ymin = true -> triple I (Ymin_block species patch) I.
Proof. intros Ha. unfold Ymin_block. cartesian_block I_set_bc ltac:(exact Ha). Qed.

Lemma Ymax_block_preserves :
  face_active params Ymax = true -> triple I (Ymax_block species patch) I.
Proof. intros Ha. unfold Ymax_block. cartesian_block I_set_bc ltac:(exact Ha). Qed.

Lemma Zmin_block_preserves :
  face_active params Zmin = true -> triple I (Zmin_block species patch) I.
Proof. intros Ha. unfold Zmin_block. cartesian_block I_set_bc ltac:(exact Ha). Qed.

Lemma Zmax_block_preserves :
  face_active params Zmax = true -> triple I (Zmax_block species patch) I.
Proof. intros Ha. unfold Zmax_block. cartesian_block I_set_bc ltac:(exact Ha). Qed.

Lemma Rmax_block_preserves :
  geometry_isRZ params = true -> triple I (Rmax_block species patch) I.
Proof.
  intros Hrz. unfold Rmax_block.
  apply triple_if; intros Hv; [|apply triple_ERROR].
  apply triple_when; intros Hb. apply triple_modify; intros s Hs.
  apply I_set_bc; [|exact Hs].
  string_tests. split; [exact Hb|].
  right. repeat split; assumption.
Qed.

Lemma transverse_blocks_preserves :
  triple I (transverse_blocks params species patch) I.
Proof.
  unfold transverse_blocks.
  apply triple_if; intros Hc; [|apply triple_if; intros Hrz].
  - eapply triple_bind; [apply Ymin_block_preserves; exact Hc|].
    eapply triple_bind; [apply Ymax_block_preserves; exact Hc|].
    apply triple_when; intros Hz.
    eapply triple_bind;
      [apply Zmin_block_preserves | apply Zmax_block_preserves];
      simpl; rewrite Hc, Hz; reflexivity.
  - apply Rmax_block_preserves, Hrz.
  - apply triple_skip.
Qed.

Lemma check_EM_particle_BCs_preserves :
  triple I (check_EM_particle_BCs params species) I.
Proof.
  unfold check_EM_particle_BCs.
  apply triple_when; intros _. apply triple_for_each; intros i.
  apply triple_when; intros _. apply triple_ERROR.
Qed.

Lemma after_limits_preserves :
  triple I (check_EM_particle_BCs params species ;;
            Xmin_block species patch ;;
            Xmax_block species patch ;;
            transverse_blocks params species patch) I.
Proof.
  eapply triple_bind; [apply check_EM_particle_BCs_preserves|].
  eapply triple_bind; [apply Xmin_block_preserves|].
  eapply triple_bind; [apply Xmax_block_preserves|].
  apply transverse_blocks_preserves.
Qed.

End Dispatch.

(** ** The object after the limits are defined *)

Lemma bc_set_bc f p s g :
  bc (set_bc f p s) g = if face_eqb f g then Some p else bc s g.
Proof. destruct f, g; reflexivity. Qed.

Lemma face_eqb_eq f g : face_eqb f g = true -> f = g.
Proof. destruct f, g; simpl; intros H; first [reflexivity | discriminate H]. Qed.

Lemma x_limits_set_bc f p s :
  x_min (set_bc f p s) = x_min s /\ x_max (set_bc f p s) = x_max s.
Proof. destruct f; split; reflexivity. Qed.

(** The limits never abort, leave every function pointer as it was, and
    choose the x limits by the test of line 42. *)
Lemma define_limits_Ok params patch s :
  exists s1,
    define_limits params patch s = Ok (tt, s1)
    /\ (forall f, bc s1 f = bc s f)
    /\ x_min s1 =
         Some (if (vec2_at (Params.EM_BCs params) 0 0 =? "periodic")
                  || Params.hasWindow params
               then Patch.getDomainLocalMin patch 0
               else dmax (x_min_global) (Patch.getDomainLocalMin patch 0))
    /\ x_max s1 =
         Some (if (vec2_at (Params.EM_BCs params) 0 0 =? "periodic")
                  || Params.hasWindow params
               then Patch.getDomainLocalMax patch 0
               else dmin (x_max_global params) (Patch.getDomainLocalMax patch 0)).
Proof.
  unfold define_limits, bind, when, modify, skip, ret.
  destruct ((vec2_at (Params.EM_BCs params) 0 0 =? "periodic")
            || Params.hasWindow params);
    destruct (1 <? Params.nDim_particle params)%nat;
    destruct (vec2_at (Params.EM_BCs params) 1 0 =? "periodic");
    destruct ((2 <? Params.nDim_particle params)%nat
              && negb (geometry_isRZ params));
    destruct (vec2_at (Params.EM_BCs params) 2 0 =? "periodic");
    eexists; (split; [reflexivity|]);
    (split; [intros f; destruct f; reflexivity|]);
    split; reflexivity.
Qed.

(** A completed construction went through every stage. *)
Lemma PartBoundCond_Ok_inv params species patch pbc :
  PartBoundCond params species patch = Ok pbc ->
  exists s1 s2 s3 s4,
    define_limits params patch (init params) = Ok (tt, s1)
    /\ check_EM_particle_BCs params species s1 = Ok (tt, s2)
    /\ Xmin_block species patch s2 = Ok (tt, s3)
    /\ Xmax_block species patch s3 = Ok (tt, s4)
    /\ transverse_blocks params species patch s4 = Ok (tt, pbc).
Proof.
  unfold PartBoundCond, body. intros H.
  destruct (bind _ _ (init params)) as [[u s]|e] eqn:Hb; [|discriminate H].
  inversion H; subst s; clear H.
  apply bind_Ok_inv in Hb as ([] & s1 & H1 & Hb).
  apply bind_Ok_inv in Hb as ([] & s2 & H2 & Hb).
  apply bind_Ok_inv in Hb as ([] & s3 & H3 & Hb).
  apply bind_Ok_inv in Hb as ([] & s4 & H4 & Hb).
  destruct u. exists s1, s2, s3, s4. auto.
Qed.

(** An invariant of the guarded assignments that holds once the limits
    are defined holds of the constructed object. *)
Lemma PartBoundCond_invariant params species patch (I : t -> Prop) pbc :
  (forall f p s, installs params species patch f p -> I s -> I (set_bc f p s)) ->
  (forall s1, define_limits params patch (init params) = Ok (tt, s1) -> I s1) ->
  PartBoundCond params species patch = Ok pbc -> I pbc.
Proof.
  intros Hset Hlim H.
  apply PartBoundCond_Ok_inv in H as (s1 & s2 & s3 & s4 & H1 & H2 & H3 & H4 & H5).
  eapply (transverse_blocks_preserves params species patch I Hset); [|exact H5].
  eapply (Xmax_block_preserves params species patch I Hset); [|exact H4].
  eapply (Xmin_block_preserves params species patch I Hset); [|exact H3].
  eapply (check_EM_particle_BCs_preserves params species I); [|exact H2].
  apply Hlim, H1.
Qed.

(** Every function pointer of the constructed object was stored by one of
    the guarded assignments. *)
Lemma installed_by_dispatch params species patch pbc :
  PartBoundCond params species patch = Ok pbc ->
  forall f p, bc pbc f = Some p -> installs params species patch f p.
Proof.
  apply (PartBoundCond_invariant params species patch
           (fun s => forall f p, bc s f = Some p ->
                                 installs params species patch f p)).
  - intros f p s Hi Hs g q. rewrite bc_set_bc.
    destruct (face_eqb f g) eqn:Hfg.
    + apply face_eqb_eq in Hfg. subst g. intros Hq. inversion Hq; subst q.
      exact Hi.
    + apply Hs.
  - intros s1 H1 f p.
    destruct (define_limits_Ok params patch (init params))
      as (s1' & H1' & Hbc & _).
    rewrite H1 in H1'. inversion H1'; subst s1'.
    rewrite Hbc. destruct f; discriminate.
Qed.

(** A face with a local boundary function holds one of the four values that
    have one. *)
Lemma installs_configured params species patch f p :
  installs params species patch f p ->
  configured species f = "reflective" \/ configured species f = "remove"
  \/ configured species f = "stop" \/ configured species f = "thermalize".
Proof.
  intros [_ [[_ H] | (_ & _ & H & _)]]; [|tauto].
  destruct H as [[H _] | [[H _] | [[H _] | [H _]]]]; tauto.
Qed.

(** ** The errors of the constructor *)

Section Errors.

Variable params : Params.t.
Variable species : Species.t.
Variable patch : Patch.t.

Lemma Xmin_block_raises : raises_only (error_justified params species) (Xmin_block species patch).
Proof. unfold Xmin_block. cartesian_block_raises ltac:(reflexivity). Qed.

Lemma Xmax_block_raises : raises_only (error_justified params species) (Xmax_block species patch).
Proof. unfold Xmax_block. cartesian_block_raises ltac:(reflexivity). Qed.

Lemma Ymin_block_raises :
  face_active params Ymin = true -> raises_only (error_justified params species) (Ymin_block species patch).
Proof. intros Ha. unfold Ymin_block. cartesian_block_raises ltac:(exact Ha). Qed.

Lemma Ymax_block_raises :
  face_active params Ymax = true -> raises_only (error_justified params species) (Ymax_block species patch).
Proof. intros Ha. unfold Ymax_block. cartesian_block_raises ltac:(exact Ha). Qed.

Lemma Zmin_block_raises :
  face_active params Zmin = true -> raises_only (error_justified params species) (Zmin_block species patch).
Proof. intros Ha. unfold Zmin_block. cartesian_block_raises ltac:(exact Ha). Qed.

Lemma Zmax_block_raises :
  face_active params Zmax = true -> raises_only (error_justified params species) (Zmax_block species patch).
Proof. intros Ha. unfold Zmax_block. cartesian_block_raises ltac:(exact Ha). Qed.

Lemma Rmax_block_raises :
  geometry_isRZ params = true -> raises_only (error_justified params species) (Rmax_block species patch).
Proof.
  intros Hrz. unfold Rmax_block.
  apply raises_if; intros Hv.
  - apply raises_when; intros _. apply raises_modify.
  - apply raises_ERROR. split; [exact Hrz|].
    apply String.eqb_neq in Hv. exact Hv.
Qed.

Lemma transverse_blocks_raises :
  raises_only (error_justified params species) (transverse_blocks params species patch).
Proof.
  unfold transverse_blocks.
  apply raises_if; intros Hc; [|apply raises_if; intros Hrz].
  - apply raises_bind; [apply Ymin_block_raises; exact Hc|].
    apply raises_bind; [apply Ymax_block_raises; exact Hc|].
    apply raises_when; intros Hz.
    apply raises_bind;
      [apply Zmin_block_raises | apply Zmax_block_raises];
      simpl; rewrite Hc, Hz; reflexivity.
  - apply Rmax_block_raises, Hrz.
  - apply raises_skip.
Qed.

Lemma check_EM_particle_BCs_raises :
  raises_only (error_justified params species) (check_EM_particle_BCs params species).
Proof.
  unfold check_EM_particle_BCs.
  apply raises_when; intros Ht. apply negb_true_iff in Ht.
  apply raises_for_each; intros i Hi. apply in_seq in Hi.
  apply raises_when; intros Hinc. apply raises_ERROR.
  repeat split; [exact Ht | lia | exact Hinc].
Qed.

Lemma define_limits_raises : raises_only (error_justified params species) (define_limits params patch).
Proof.
  intros s e H.
  destruct (define_limits_Ok params patch s) as (s1 & H1 & _).
  rewrite H1 in H. discriminate H.
Qed.

(** Every error of the constructor is justified by the configuration. *)
Lemma errors_justified e :
  PartBoundCond params species patch = Error e ->
  error_justified params species e.
Proof.
  unfold PartBoundCond. intros H.
  destruct (body params species patch (init params)) as [[u s]|e'] eqn:Hb;
    [discriminate H|].
  inversion H; subst e'; clear H.
  revert Hb. apply raises_bind; [apply define_limits_raises|].
  apply raises_bind; [apply check_EM_particle_BCs_raises|].
  apply raises_bind; [apply Xmin_block_raises|].
  apply raises_bind; [apply Xmax_block_raises|].
  apply transverse_blocks_raises.
Qed.

End Errors.

(** The constructor completes on every configuration that passes the
    consistency test, holds a value with a branch on each face whose block
    is executed, and, in Rz geometry, holds [remove] at the outer radial
    face. *)
Lemma PartBoundCond_succeeds params species patch :
  (Particles.tracked (Species.particles species) = false ->
   forall iDim, (iDim < Params.nDim_field params)%nat ->
                inconsistent params species iDim = false) ->
  (forall f, face_active params f = true ->
             has_branch f (configured species f) = true) ->
  (geometry_isRZ params = true -> configured species Ymax = "remove") ->
  exists pbc, PartBoundCond params species patch = Ok pbc.
Proof.
  intros Hcons Hbranch Hrz.
  destruct (PartBoundCond params species patch) as [pbc|e] eqn:H.
  - exists pbc. reflexivity.
  - exfalso. apply errors_justified in H.
    destruct e as [n i|f v|]; simpl in H.
    + destruct H as (_ & Ht & Hi & Hinc).
      rewrite (Hcons Ht i Hi) in Hinc. discriminate Hinc.
    + destruct H as (Ha & Hv & Hb). subst v.
      rewrite (Hbranch f Ha) in Hb. discriminate Hb.
    + destruct H as [Hg Hv]. apply Hv, Hrz, Hg.
Qed.

(** The consistency loop stops at the first axis whose test fires. *)
Lemma for_each_check params species (l : list nat) s :
  for_each l (fun iDim =>
    when (inconsistent params species iDim)
         (ERROR (PeriodicEM_requires_periodic (Species.name species) iDim))) s
  = match find (inconsistent params species) l with
    | Some iDim => Error (PeriodicEM_requires_periodic (Species.name species) iDim)
    | None => Ok (tt, s)
    end.
Proof.
  induction l as [|i l IH]; simpl; [reflexivity|].
  unfold bind, when. destruct (inconsistent params species i); simpl.
  - reflexivity.
  - exact IH.
Qed.

Lemma check_EM_particle_BCs_run params species s :
  check_EM_particle_BCs params species s
  = if Particles.tracked (Species.particles species) then Ok (tt, s)
    else match first_inconsistent params species with
         | Some iDim =>
             Error (PeriodicEM_requires_periodic (Species.name species) iDim)
         | None => Ok (tt, s)
         end.
Proof.
  unfold check_EM_particle_BCs, first_inconsistent, when.
  destruct (Particles.tracked (Species.particles species)); simpl.
  - reflexivity.
  - apply for_each_check.
Qed.


(** ** The validity rule between EM and particle boundaries *)




(** When the EM boundaries of an axis are periodic on both sides or on
    neither, the side-by-side condition is the same as: some EM side is
    periodic and the species is not periodic on both sides. *)
Lemma periodic_mismatch_on_paired_EM params species iDim :
  (vec2_at (Params.EM_BCs params) iDim 0 = "periodic"
   <-> vec2_at (Params.EM_BCs params) iDim 1 = "periodic") ->
  periodic_mismatch params species iDim
  <-> ((vec2_at (Params.EM_BCs params) iDim 0 = "periodic"
        \/ vec2_at (Params.EM_BCs params) iDim 1 = "periodic")
       /\ ~ (vec2_at (Species.boundary_conditions species) iDim 0 = "periodic"
             /\ vec2_at (Species.boundary_conditions species) iDim 1 = "periodic")).
Proof.
  intros Hpair. unfold periodic_mismatch.
  destruct (String.eqb_spec
              (vec2_at (Species.boundary_conditions species) iDim 0) "periodic");
    destruct (String.eqb_spec
                (vec2_at (Species.boundary_conditions species) iDim 1) "periodic");
    tauto.
Qed.

(** ** Axisymmetric geometry *)

Lemma geometry_isRZ_3drz params :
  Params.geometry params = "3drz" -> geometry_isRZ params = true.
Proof. intros H. unfold geometry_isRZ. rewrite H. reflexivity. Qed.

(** In Rz geometry the transverse stage is the outer radial block. *)
Lemma transverse_blocks_Rz params species patch :
  geometry_isRZ params = true ->
  transverse_blocks params species patch = Rmax_block species patch.
Proof.
  intros Hrz. unfold transverse_blocks. rewrite Hrz, andb_false_r. reflexivity.
Qed.

(** C2. In [3drz] geometry: any value other than [remove] at the outer
    radial face (Ymax) makes the constructor abort with an error; with
    [remove] there it never aborts with the Rz error; and a completed
    construction has [remove] at Ymax and no function at the inner radial
    face (Ymin). *)
Theorem Rz_accepts_only_remove_at_Rmax params species patch :
  Params.geometry params = "3drz" ->
  (configured species Ymax <> "remove" ->
     exists e, PartBoundCond params species patch = Error e)
  /\ (configured species Ymax = "remove" ->
        PartBoundCond params species patch <> Error only_remove_in_Rz)
  /\ (forall pbc, PartBoundCond params species patch = Ok pbc ->
        configured species Ymax = "remove" /\ bc pbc Ymin = None).
Proof.
  intros Hg. apply geometry_isRZ_3drz in Hg.
  assert (Hok : forall pbc, PartBoundCond params species patch = Ok pbc ->
                  configured species Ymax = "remove" /\ bc pbc Ymin = None).
  { intros pbc H. split.
    - apply PartBoundCond_Ok_inv in H as (s1 & s2 & s3 & s4 & _ & _ & _ & _ & H5).
      rewrite (transverse_blocks_Rz _ _ _ Hg) in H5. unfold Rmax_block in H5.
      destruct (String.eqb_spec
                  (vec2_at (Species.boundary_conditions species) 1 1) "remove")
        as [Hv|Hv]; [exact Hv | discriminate H5].
    - destruct (bc pbc Ymin) as [p|] eqn:Hp; [|reflexivity].
      apply (installed_by_dispatch _ _ _ _ H) in Hp.
      destruct Hp as [_ [[Ha _] | (Hf & _)]]; [|discriminate Hf].
      simpl in Ha. rewrite Hg, andb_false_r in Ha. discriminate Ha. }
  split; [|split; [|exact Hok]].
  - intros Hv.
    destruct (PartBoundCond params species patch) as [pbc|e] eqn:H.
    + destruct (Hok pbc eq_refl) as [Hv' _]. contradiction.
    + exists e. reflexivity.
  - intros Hv H. apply errors_justified in H. destruct H as [_ H].
    contradiction.
Qed.

Lemma Rz_accepts_only_remove_at_Rmax_witness :
  (exists e, PartBoundCond Deck.deck_rz
               (Deck.electron [["remove"; "remove"]; ["none"; "reflective"]])
               Deck.boundary_patch = Error e)
  /\ (exists pbc, PartBoundCond Deck.deck_rz
                    (Deck.electron [["remove"; "remove"]; ["none"; "remove"]])
                    Deck.boundary_patch = Ok pbc
                  /\ bc pbc Ymin = None).
Proof.
  split.
  - destruct (Rz_accepts_only_remove_at_Rmax
                Deck.deck_rz
                (Deck.electron [["remove"; "remove"]; ["none"; "reflective"]])
                Deck.boundary_patch eq_refl) as (H1 & _ & _).
    apply H1. discriminate.
  - destruct (Rz_accepts_only_remove_at_Rmax
                Deck.deck_rz
                (Deck.electron [["remove"; "remove"]; ["none"; "remove"]])
                Deck.boundary_patch eq_refl) as (_ & _ & H3).
    eexists. split; [vm_compute; reflexivity|].
    apply (H3 _ eq_refl).
Defined.

(** ** Where local boundary functions are installed *)

(** C6. In a constructed object a face holds a boundary function only if
    the patch face lies on the global boundary; on an interior face, and on
    a face configured [periodic], the pointer is NULL. *)
Theorem local_bc_only_on_global_boundary params species patch pbc :
  PartBoundCond params species patch = Ok pbc ->
  forall f,
    (forall p, bc pbc f = Some p -> Patch.on_boundary patch f = true)
    /\ (Patch.on_boundary patch f = false -> bc pbc f = None)
    /\ (configured species f = "periodic" -> bc pbc f = None).
Proof.
  intros H f.
  assert (Hon : forall p, bc pbc f = Some p -> Patch.on_boundary patch f = true).
  { intros p Hp. apply (installed_by_dispatch _ _ _ _ H) in Hp.
    destruct Hp as [Hb _]. exact Hb. }
  split; [exact Hon|]. split.
  - intros Hint. destruct (bc pbc f) as [p|] eqn:Hp; [|reflexivity].
    rewrite (Hon p eq_refl) in Hint. discriminate Hint.
  - intros Hper. destruct (bc pbc f) as [p|] eqn:Hp; [|reflexivity].
    apply (installed_by_dispatch _ _ _ _ H) in Hp.
    apply installs_configured in Hp. rewrite Hper in Hp.
    destruct Hp as [Hp | [Hp | [Hp | Hp]]]; discriminate Hp.
Qed.

Lemma local_bc_only_on_global_boundary_witness :
  exists pbc,
    PartBoundCond Deck.deck_3d
      (Deck.electron [["reflective"; "remove"]; ["stop"; "thermalize"];
                      ["remove"; "stop"]])
      Deck.interior_patch = Ok pbc
    /\ forall f, bc pbc f = None.
Proof.
  eexists. split; [vm_compute; reflexivity|].
  intros f.
  destruct (local_bc_only_on_global_boundary
              Deck.deck_3d
              (Deck.electron [["reflective"; "remove"]; ["stop"; "thermalize"];
                              ["remove"; "stop"]])
              Deck.interior_patch _ eq_refl f) as (_ & Hint & _).
  apply Hint. destruct f; reflexivity.
Defined.

(** ** The x limits *)

(** C10. In a constructed object the x limits are the patch-local bounds
    when the moving window is enabled, as they are when the x EM boundary
    is periodic; they are clamped to the global extent
    [0, cell_length[0]*n_space_global[0]] exactly when the x EM boundary is
    not periodic and there is no window. *)
Theorem x_limits_local_under_window params species patch pbc :
  PartBoundCond params species patch = Ok pbc ->
  (Params.hasWindow params = true
   \/ vec2_at (Params.EM_BCs params) 0 0 = "periodic" ->
     x_min pbc = Some (Patch.getDomainLocalMin patch 0)
     /\ x_max pbc = Some (Patch.getDomainLocalMax patch 0))
  /\ (Params.hasWindow params = false ->
      vec2_at (Params.EM_BCs params) 0 0 <> "periodic" ->
     x_min pbc = Some (dmax 0%float (Patch.getDomainLocalMin patch 0))
     /\ x_max pbc =
          Some (dmin (PrimFloat.mul
                        (vecd_at (Params.cell_length params) 0)
                        (double_of_uint (vecu_at (Params.n_space_global params) 0)))
                     (Patch.getDomainLocalMax patch 0))).
Proof.
  intros H.
  destruct (define_limits_Ok params patch (init params))
    as (s1 & H1 & _ & Hlo & Hhi).
  assert (Hx : x_min pbc = x_min s1 /\ x_max pbc = x_max s1).
  { revert H.
    apply (PartBoundCond_invariant params species patch
             (fun s => x_min s = x_min s1 /\ x_max s = x_max s1)).
    - intros f p s _ [Ha Hb].
      destruct (x_limits_set_bc f p s) as [Ha' Hb'].
      rewrite Ha', Hb'. split; assumption.
    - intros s1' H1'. rewrite H1 in H1'. inversion H1'; subst s1'.
      split; reflexivity. }
  destruct Hx as [Hxlo Hxhi]. rewrite Hxlo, Hxhi, Hlo, Hhi. split.
  - intros [Hw | Hp].
    + rewrite Hw, orb_true_r. split; reflexivity.
    + apply String.eqb_eq in Hp. rewrite Hp. split; reflexivity.
  - intros Hw Hp. apply String.eqb_neq in Hp. rewrite Hw, Hp.
    split; reflexivity.
Qed.

Lemma x_limits_local_under_window_witness :
  (exists pbc,
     PartBoundCond Deck.deck_2d_window
       (Deck.electron [["remove"; "remove"]; ["reflective"; "reflective"]])
       Deck.boundary_patch = Ok pbc
     /\ x_min pbc = Some 4%float /\ x_max pbc = Some 12%float)
  /\ (exists pbc,
        PartBoundCond Deck.deck_2d
          (Deck.electron [["remove"; "remove"]; ["reflective"; "reflective"]])
          Deck.boundary_patch = Ok pbc
        /\ x_min pbc = Some 4%float /\ x_max pbc = Some 8%float).
Proof.
  split.
  - eexists. split; [vm_compute; reflexivity|].
    apply (x_limits_local_under_window
             Deck.deck_2d_window
             (Deck.electron [["remove"; "remove"]; ["reflective"; "reflective"]])
             Deck.boundary_patch _ eq_refl).
    left. reflexivity.
  - eexists. split; [vm_compute; reflexivity|].
    apply (x_limits_local_under_window
             Deck.deck_2d
             (Deck.electron [["remove"; "remove"]; ["reflective"; "reflective"]])
             Deck.boundary_patch _ eq_refl);
      [reflexivity | discriminate].
Defined.

(** ** The variant stored for [remove] *)

(** On the faces served by the Cartesian dispatch — every face outside Rz
    geometry, the x faces in Rz geometry — a function stored for [remove]
    is the local pointer [remove], chosen by the mass. *)
Lemma cartesian_remove_follows_mass params species patch pbc f p :
  PartBoundCond params species patch = Ok pbc ->
  bc pbc f = Some p ->
  configured species f = "remove" ->
  (f = Ymax -> geometry_isRZ params = false) ->
  p = if PrimFloat.eqb (Species.mass species) 0%float
      then remove_photon else remove_particle.
Proof.
  intros H Hp Hv Hrz.
  apply (installed_by_dispatch _ _ _ _ H) in Hp.
  destruct Hp as [_ [[_ Hc] | (Hf & Hg & _)]].
  - rewrite Hv in Hc.
    destruct Hc as [[Hc _] | [[_ Hc] | [[Hc _] | [Hc _]]]];
      first [discriminate Hc | exact Hc].
  - rewrite (Hrz Hf) in Hg. discriminate Hg.
Qed.

(** C3, at the outer radial face. A photon species (mass zero) in [3drz]
    geometry with [remove] on every face, on a patch whose faces all lie on
    the global boundary: the x faces receive [remove_photon], the outer
    radial face receives [remove_particle]. *)
Theorem Rz_photon_remove_stores_particle_variant :
  PrimFloat.eqb
    (Species.mass (Deck.photon [["remove"; "remove"]; ["remove"; "remove"]]))
    0%float = true
  /\ exists pbc,
       PartBoundCond Deck.deck_rz
         (Deck.photon [["remove"; "remove"]; ["remove"; "remove"]])
         Deck.boundary_patch = Ok pbc
       /\ bc pbc Xmin = Some remove_photon
       /\ bc pbc Xmax = Some remove_photon
       /\ bc pbc Ymax = Some remove_particle.
Proof.
  split; [reflexivity|].
  eexists. split; [vm_compute; reflexivity|].
  repeat split; reflexivity.
Qed.

(** ** Recognised values *)

(** The unknown-value error of a face is raised only for a value that is
    none of [reflective], [remove], [stop], [periodic], and that is not
    [thermalize] unless the face is a z face. *)
Lemma unknown_BC_needs_unlisted_value params species patch f v :
  PartBoundCond params species patch = Error (unknown_BC f v) ->
  v = configured species f
  /\ v <> "reflective" /\ v <> "remove" /\ v <> "stop" /\ v <> "periodic"
  /\ (v = "thermalize" -> face_axis f = 2%nat).
Proof.
  intros H. apply errors_justified in H. destruct H as (_ & Hv & Hb).
  split; [exact Hv|]. unfold has_branch in Hb.
  repeat (apply orb_false_iff in Hb; destruct Hb as [Hb ?]).
  string_tests. repeat split; try assumption.
  intros Ht. apply String.eqb_eq in Ht.
  match goal with
  | Hand : _ && _ = false |- _ =>
      rewrite Ht in Hand; simpl in Hand;
      apply negb_false_iff, Nat.eqb_eq in Hand; exact Hand
  end.
Qed.

(** C4, on the z axis. In 3D, [thermalize] on every x and y face is
    accepted and installs [thermalize_particle]; [thermalize] on the z-min
    face aborts the constructor with the unknown-value error. *)
Theorem thermalize_on_z_is_unknown :
  (exists pbc,
     PartBoundCond Deck.deck_3d
       (Deck.electron [["thermalize"; "thermalize"];
                       ["thermalize"; "thermalize"];
                       ["reflective"; "reflective"]])
       Deck.boundary_patch = Ok pbc
     /\ bc pbc Xmin = Some thermalize_particle
     /\ bc pbc Ymax = Some thermalize_particle)
  /\ PartBoundCond Deck.deck_3d
       (Deck.electron [["reflective"; "reflective"];
                       ["reflective"; "reflective"];
                       ["thermalize"; "reflective"]])
       Deck.boundary_patch = Error (unknown_BC Zmin "thermalize")
  /\ PartBoundCond Deck.deck_3d
       (Deck.electron [["reflective"; "reflective"];
                       ["reflective"; "reflective"];
                       ["reflective"; "thermalize"]])
       Deck.boundary_patch = Error (unknown_BC Zmax "thermalize").
Proof.
  split; [|split; vm_compute; reflexivity].
  eexists. split; [vm_compute; reflexivity|].
  split; reflexivity.
Qed.

(** ** The time loop *)

Import Smilei.
Local Open Scope list_scope.

Lemma iteration_time_dual params smpi st :
  time_dual (snd (iteration params smpi st))
  = PrimFloat.add (time_dual st) (Params.timestep params).
Proof. reflexivity. Qed.

(** C5. In every iteration, each of the three calls of the Maxwell phase
    ([patchedToCartesian], [domain.solveMaxwell], [cartesianToPatches]) is
    issued exactly when the current [time_dual] exceeds
    [time_fields_frozen]; when it does not, none of them is issued, and
    when it does, all three are, in this order. *)
Theorem Maxwell_skipped_iff_time_not_past_frozen params smpi st :
  let t := PrimFloat.add (time_dual st) (Params.timestep params) in
  let calls := fst (iteration params smpi st) in
  occurs patchedToCartesian calls = PrimFloat.ltb (Params.time_fields_frozen params) t
  /\ occurs solveMaxwell calls = PrimFloat.ltb (Params.time_fields_frozen params) t
  /\ occurs cartesianToPatches calls = PrimFloat.ltb (Params.time_fields_frozen params) t
  /\ List.filter mirror_phase calls
     = if PrimFloat.ltb (Params.time_fields_frozen params) t
       then [patchedToCartesian; solveMaxwell; cartesianToPatches]
       else [].
Proof.
  unfold iteration, fields_not_frozen; simpl.
  destruct (PrimFloat.ltb (Params.time_fields_frozen params)
              (PrimFloat.add (time_dual st) (Params.timestep params)));
    destruct (Params.has_load_balancing params);
    destruct (Params.theTimeIsNow params (itime st));
    destruct (SmileiMPI.isMaster smpi);
    destruct (Params.printNow params (itime st));
    repeat split; reflexivity.
Qed.

(** At the threshold itself ([time_dual] equal to [time_fields_frozen],
    here 0.25 + 0.25 = 0.5) the solve is skipped; one step later it runs. *)
Lemma Maxwell_skipped_at_the_threshold :
  List.filter mirror_phase
    (fst (iteration Deck.deck_3d Run.rank0 (Run.at_time 0.25%float 1%N))) = []
  /\ List.filter mirror_phase
       (fst (iteration Deck.deck_3d Run.rank0 (Run.at_time 0.5%float 2%N)))
     = [patchedToCartesian; solveMaxwell; cartesianToPatches].
Proof. split; vm_compute; reflexivity. Qed.

(** C7. In every iteration the operations of the chain are issued in the
    order dynamics, sumDensities, the Maxwell phase (when the fields are
    not frozen), finalize_sync_and_bc_fields, runAllDiags, the moving-window
    operate, load_balance (when scheduled), each once. *)
Theorem chain_order_in_every_iteration params smpi st :
  List.filter in_chain (fst (iteration params smpi st))
  = [dynamics; sumDensities]
    ++ (if fields_not_frozen params
             (PrimFloat.add (time_dual st) (Params.timestep params))
        then [patchedToCartesian; solveMaxwell; cartesianToPatches] else [])
    ++ [finalize_sync_and_bc_fields; runAllDiags; operate]
    ++ (if Params.has_load_balancing params
           && Params.theTimeIsNow params (itime st)
        then [load_balance] else []).
Proof.
  unfold iteration; simpl.
  destruct (fields_not_frozen params
              (PrimFloat.add (time_dual st) (Params.timestep params)));
    destruct (Params.has_load_balancing params);
    destruct (Params.theTimeIsNow params (itime st));
    destruct (SmileiMPI.isMaster smpi);
    destruct (Params.printNow params (itime st));
    reflexivity.
Qed.

(** ** Barriers around the Maxwell phase *)

(** No global barrier follows call [i] of a sequence. *)
Lemma not_barrier_after (tr : list call) (a : call) (i : nat) :
  tr !! i = Some a ->
  occurs MPI_Barrier (drop (S i) tr) = false ->
  ~ barrier_after a tr.
Proof.
  intros Hi Hnone H. destruct (H i Hi) as (k & Hk & Hb).
  assert (Hocc : occurs MPI_Barrier (drop (S i) tr) = true).
  { apply existsb_exists. exists MPI_Barrier. split; [|reflexivity].
    apply list_elem_of_In. apply (list_elem_of_lookup_2 _ (k - S i)).
    rewrite lookup_drop. replace (S i + (k - S i))%nat with k by lia.
    exact Hb. }
  rewrite Hnone in Hocc. discriminate Hocc.
Qed.

(** C8, as stated, fails: in an iteration in which the solve runs
    ([time_dual] 0.75 past the threshold 0.5), [solveMaxwell] (call 8) is
    followed directly by [cartesianToPatches] (call 9), and no global
    barrier is issued after [cartesianToPatches]. *)
Lemma no_barrier_between_solve_and_scatter :
  fields_not_frozen Deck.deck_3d (PrimFloat.add 0.5%float 0.25%float) = true
  /\ ~ barrier_separates solveMaxwell cartesianToPatches Run.solve_step_calls
  /\ ~ barrier_after cartesianToPatches Run.solve_step_calls
  /\ ~ barriers_around_mirror_phases Run.solve_step_calls.
Proof.
  assert (Hsep : ~ barrier_separates solveMaxwell cartesianToPatches
                     Run.solve_step_calls).
  { intros H.
    destruct (H 8%nat 9%nat eq_refl eq_refl ltac:(lia)) as (k & Hk & _).
    lia. }
  split; [reflexivity|]. split; [exact Hsep|]. split.
  - apply (not_barrier_after _ _ 9); vm_compute; reflexivity.
  - intros (_ & H & _). exact (Hsep H).
Qed.

(** C8, amended. In every iteration in which the solve runs, the calls up
    to the scatter are: ..., a global barrier, a second global barrier, the
    gather, a global barrier, the solve, the scatter; no global barrier is
    issued in the rest of the iteration. *)
Theorem barriers_of_the_Maxwell_phase params smpi st :
  fields_not_frozen params
    (PrimFloat.add (time_dual st) (Params.timestep params)) = true ->
  exists rest,
    fst (iteration params smpi st)
    = [applyCollisions; dynamics; sumDensities; applyAntennas;
       MPI_Barrier;
       MPI_Barrier; patchedToCartesian;
       MPI_Barrier; solveMaxwell; cartesianToPatches] ++ rest
    /\ occurs MPI_Barrier rest = false.
Proof.
  intros Hrun. unfold iteration. rewrite Hrun. simpl.
  eexists. split; [reflexivity|].
  destruct (Params.has_load_balancing params);
    destruct (Params.theTimeIsNow params (itime st));
    destruct (SmileiMPI.isMaster smpi);
    destruct (Params.printNow params (itime st));
    reflexivity.
Qed.

Lemma barriers_of_the_Maxwell_phase_witness :
  exists rest,
    fst (iteration Deck.deck_3d Run.rank0 (Run.at_time 0.5%float 2%N))
    = [applyCollisions; dynamics; sumDensities; applyAntennas;
       MPI_Barrier;
       MPI_Barrier; patchedToCartesian;
       MPI_Barrier; solveMaxwell; cartesianToPatches] ++ rest
    /\ occurs MPI_Barrier rest = false.
Proof.
  apply (barriers_of_the_Maxwell_phase
           Deck.deck_3d Run.rank0 (Run.at_time 0.5%float 2%N)).
  reflexivity.
Defined.

(** ** The rectangular partition across the loop *)

Lemma iteration_stable params smpi st :
  domain (snd (iteration params smpi st)) = domain st
  /\ List.filter recomputes_partition (fst (iteration params smpi st)) = [].
Proof.
  unfold iteration; simpl. split; [reflexivity|].
  destruct (fields_not_frozen params _);
    destruct (Params.has_load_balancing params);
    destruct (Params.theTimeIsNow params (itime st));
    destruct (SmileiMPI.isMaster smpi);
    destruct (Params.printNow params (itime st));
    reflexivity.
Qed.

Lemma time_loop_S params smpi checkpoint fuel st :
  time_loop params smpi checkpoint (S fuel) st
  = if loop_condition params checkpoint st then
      let (calls, st') := iteration params smpi st in
      let (rest, st'') := time_loop params smpi checkpoint fuel st' in
      (calls ++ rest, st'')
    else ([], st).
Proof. reflexivity. Qed.

Lemma time_loop_stable params smpi checkpoint fuel :
  forall st,
    domain (snd (time_loop params smpi checkpoint fuel st)) = domain st
    /\ List.filter recomputes_partition
         (fst (time_loop params smpi checkpoint fuel st)) = [].
Proof.
  induction fuel as [|fuel IH]; intros st.
  - split; reflexivity.
  - rewrite time_loop_S.
    destruct (loop_condition params checkpoint st); [|split; reflexivity].
    destruct (iteration_stable params smpi st) as [Hd Hc].
    destruct (iteration params smpi st) as [calls st'] eqn:Hit.
    destruct (IH st') as [Hd' Hc'].
    destruct (time_loop params smpi checkpoint fuel st') as [rest st''].
    simpl in *. split.
    + rewrite Hd'. exact Hd.
    + rewrite List.filter_app, Hc, Hc'. reflexivity.
Qed.

(** The loop exits: below the largest [unsigned int] the counter does not
    wrap, and [n_time + 1 - itime] iterations reach the end of the run. *)
Lemma time_loop_exits params smpi checkpoint fuel :
  forall st,
    (Params.n_time params < uint_max_plus_1 - 1)%N ->
    (N.to_nat (Params.n_time params + 1 - itime st) <= fuel)%nat ->
    loop_condition params checkpoint
      (snd (time_loop params smpi checkpoint fuel st)) = false.
Proof.
  unfold uint_max_plus_1.
  induction fuel as [|fuel IH]; intros st Hn Hf.
  - simpl. unfold loop_condition.
    assert (Hle : (itime st <=? Params.n_time params)%N = false)
      by (apply N.leb_gt; lia).
    rewrite Hle. reflexivity.
  - rewrite time_loop_S.
    destruct (loop_condition params checkpoint st) eqn:Hc; [|exact Hc].
    unfold loop_condition in Hc. apply andb_true_iff in Hc as [Hle _].
    apply N.leb_le in Hle.
    specialize (IH (snd (iteration params smpi st)) Hn).
    destruct (iteration params smpi st) as [calls st'] eqn:Hit.
    assert (Hst : itime st' = (itime st + 1)%N).
    { unfold iteration in Hit. inversion Hit. simpl.
      apply N.mod_small. unfold uint_max_plus_1. lia. }
    simpl in IH.
    destruct (time_loop params smpi checkpoint fuel st') as [rest st''].
    simpl in *. apply IH. rewrite Hst. lia.
Qed.

(** A [load_balance] after which no call recomputes the partition. *)
Lemma not_recomputed_after (tr : list call) (i : nat) :
  tr !! i = Some load_balance ->
  List.filter recomputes_partition (drop (S i) tr) = [] ->
  ~ partition_recomputed_after_load_balance tr.
Proof.
  intros Hi Hnone H. destruct (H i Hi) as (k & c & Hk & Hc & Hr).
  assert (Hin : In c (List.filter recomputes_partition (drop (S i) tr))).
  { apply List.filter_In. split; [|exact Hr].
    apply list_elem_of_In. apply (list_elem_of_lookup_2 _ (k - S i)).
    rewrite lookup_drop. replace (S i + (k - S i))%nat with k by lia.
    exact Hc. }
  rewrite Hnone in Hin. destruct Hin.
Qed.

(** C9, as stated, fails: in a run of four steps with load balancing at
    the even steps, [load_balance] is call 35, two more steps follow, and
    no later call recomputes the partition. *)
Lemma partition_not_recomputed_after_load_balance :
  Run.four_steps_calls !! 35%nat = Some load_balance
  /\ List.filter recomputes_partition (drop 36 Run.four_steps_calls) = []
  /\ ~ partition_recomputed_after_load_balance Run.four_steps_calls.
Proof.
  split; [vm_compute; reflexivity|].
  split; [vm_compute; reflexivity|].
  apply (not_recomputed_after _ 35); vm_compute; reflexivity.
Qed.

(** C9, amended. Whatever the schedule and the number of iterations, the
    tables the loop ends with are those chosen before the loop, and the
    only calls that compute the partition are the two issued before the
    loop: no iteration recomputes it, after [load_balance] or otherwise. *)
Theorem partition_chosen_once_before_the_loop
    params smpi checkpoint identify_additional identify_missing
    fuel t_prim t_dual d :
  domain (snd (run params smpi checkpoint identify_additional identify_missing
                   fuel t_prim t_dual d))
  = snd (identify_patches smpi identify_additional identify_missing d)
  /\ exists loop_calls,
       fst (run params smpi checkpoint identify_additional identify_missing
                fuel t_prim t_dual d)
       = [identify_additional_patches; identify_missing_patches; MPI_Barrier]
         ++ loop_calls
       /\ List.filter recomputes_partition loop_calls = [].
Proof.
  unfold run.
  destruct (identify_patches smpi identify_additional identify_missing d)
    as [setup d'] eqn:Hid.
  assert (Hsetup : setup = [identify_additional_patches;
                            identify_missing_patches; MPI_Barrier]).
  { unfold identify_patches in Hid. inversion Hid. reflexivity. }
  match goal with
  | |- context [time_loop params smpi checkpoint fuel ?st0] =>
      destruct (time_loop_stable params smpi checkpoint fuel st0) as [Hd Hc];
      destruct (time_loop params smpi checkpoint fuel st0) as [calls st]
  end.
  simpl in *. split; [exact Hd|].
  exists calls. rewrite Hsetup. split; [reflexivity | exact Hc].
Qed.

(** * Further properties of the constructor *)

(** ** Each block as a function *)

Ltac run_block :=
  intros; unfold block_effect, cartesian_fn, has_branch, configured; simpl;
  repeat match goal with
         | |- context [(?v =? ?c)%string] => destruct (v =? c)%string
         end;
  simpl; rewrite ?andb_false_r; simpl;
  unfold when, modify, skip, ret, ERROR;
  repeat match goal with
         | |- context [if ?b then _ else _] => destruct b
         end;
  reflexivity.

Lemma Xmin_block_run species patch s :
  Xmin_block species patch s
  = if has_branch Xmin (configured species Xmin)
    then Ok (tt, block_effect species patch Xmin s)
    else Error (unknown_BC Xmin (configured species Xmin)).
Proof. unfold Xmin_block. run_block. Qed.

Lemma Xmax_block_run species patch s :
  Xmax_block species patch s
  = if has_branch Xmax (configured species Xmax)
    then Ok (tt, block_effect species patch Xmax s)
    else Error (unknown_BC Xmax (configured species Xmax)).
Proof. unfold Xmax_block. run_block. Qed.

Lemma Ymin_block_run species patch s :
  Ymin_block species patch s
  = if has_branch Ymin (configured species Ymin)
    then Ok (tt, block_effect species patch Ymin s)
    else Error (unknown_BC Ymin (configured species Ymin)).
Proof. unfold Ymin_block. run_block. Qed.

Lemma Ymax_block_run species patch s :
  Ymax_block species patch s
  = if has_branch Ymax (configured species Ymax)
    then Ok (tt, block_effect species patch Ymax s)
    else Error (unknown_BC Ymax (configured species Ymax)).
Proof. unfold Ymax_block. run_block. Qed.

Lemma Zmin_block_run species patch s :
  Zmin_block species patch s
  = if has_branch Zmin (configured species Zmin)
    then Ok (tt, block_effect species patch Zmin s)
    else Error (unknown_BC Zmin (configured species Zmin)).
Proof. unfold Zmin_block. run_block. Qed.

Lemma Zmax_block_run species patch s :
  Zmax_block species patch s
  = if has_branch Zmax (configured species Zmax)
    then Ok (tt, block_effect species patch Zmax s)
    else Error (unknown_BC Zmax (configured species Zmax)).
Proof. unfold Zmax_block. run_block. Qed.

Lemma Rmax_block_run species patch s :
  Rmax_block species patch s
  = if configured species Ymax =? "remove"
    then Ok (tt, if Patch.isYmax patch
                 then set_bc Ymax remove_particle s else s)
    else Error only_remove_in_Rz.
Proof.
  unfold Rmax_block, configured, when, modify, skip, ret, ERROR; simpl.
  destruct (vec2_at (Species.boundary_conditions species) 1 1 =? "remove");
    [destruct (Patch.isYmax patch)|]; reflexivity.
Qed.

Lemma define_limits_run params patch :
  define_limits params patch (init params)
  = Ok (tt, limits_defined params patch).
Proof.
  unfold limits_defined.
  destruct (define_limits_Ok params patch (init params)) as (s1 & H1 & _).
  rewrite H1. reflexivity.
Qed.

Lemma bc_limits_defined params patch f :
  bc (limits_defined params patch) f = None.
Proof.
  unfold limits_defined.
  destruct (define_limits_Ok params patch (init params)) as (s1 & H1 & Hbc & _).
  rewrite H1, Hbc. destruct f; reflexivity.
Qed.

Lemma bc_block_effect species patch g s f :
  bc (block_effect species patch g s) f
  = if face_eqb g f && Patch.on_boundary patch g
    then match cartesian_fn species g with
         | Some p => Some p
         | None => bc s f
         end
    else bc s f.
Proof.
  unfold block_effect.
  destruct (Patch.on_boundary patch g); [|rewrite andb_false_r; reflexivity].
  rewrite andb_true_r.
  destruct (cartesian_fn species g) as [p|].
  - apply bc_set_bc.
  - destruct (face_eqb g f); reflexivity.
Qed.

(** ** The outcome of the constructor *)

Lemma PartBoundCond_run params species patch :
  match PartBoundCond params species patch with
  | Ok pbc =>
      first_error params species = None
      /\ forall f, bc pbc f = expected_bc params species patch f
  | Error e => first_error params species = Some e
  end.
Proof.
  unfold PartBoundCond, body, first_error, bind.
  rewrite define_limits_run, check_EM_particle_BCs_run.
  assert (Hact : forall f, face_active params f =
            match f with
            | Xmin | Xmax => true
            | Ymin | Ymax =>
                (1 <? Params.nDim_particle params)%nat && negb (geometry_isRZ params)
            | Zmin | Zmax =>
                (1 <? Params.nDim_particle params)%nat && negb (geometry_isRZ params)
                && (2 <? Params.nDim_particle params)%nat
            end) by (intros []; reflexivity).
  unfold all_faces, transverse_blocks. cbn [List.filter]. rewrite !Hact.
  unfold expected_bc, dispatch_fn.
  destruct (if Particles.tracked (Species.particles species) then None
            else first_inconsistent params species) as [i|] eqn:Hcheck.
  - destruct (Particles.tracked (Species.particles species)); [discriminate|].
    rewrite Hcheck. reflexivity.
  - assert (Hc : (if Particles.tracked (Species.particles species)
                  then Ok (tt, limits_defined params patch)
                  else match first_inconsistent params species with
                       | Some iDim => Error (PeriodicEM_requires_periodic (Species.name species) iDim)
                       | None => Ok (tt, limits_defined params patch)
                       end) = Ok (tt, limits_defined params patch)).
    { destruct (Particles.tracked (Species.particles species));
        [reflexivity | rewrite Hcheck; reflexivity]. }
    rewrite Hc. clear Hc Hcheck.
    destruct (1 <? Params.nDim_particle params)%nat eqn:H1;
      destruct (geometry_isRZ params) eqn:Hrz;
      destruct (2 <? Params.nDim_particle params)%nat eqn:H2;
      cbn [andb negb find List.filter];
      rewrite Xmin_block_run;
      (destruct (has_branch Xmin (configured species Xmin)); [|reflexivity]);
      rewrite Xmax_block_run;
      (destruct (has_branch Xmax (configured species Xmax)); [|reflexivity]);
      cbn [andb negb];
      unfold bind, when, skip, ret;
      rewrite ?Rmax_block_run;
      rewrite ?Ymin_block_run;
      try (destruct (has_branch Ymin (configured species Ymin)); [|reflexivity]);
      rewrite ?Ymax_block_run;
      try (destruct (has_branch Ymax (configured species Ymax)); [|reflexivity]);
      rewrite ?Zmin_block_run;
      try (destruct (has_branch Zmin (configured species Zmin)); [|reflexivity]);
      rewrite ?Zmax_block_run;
      try (destruct (has_branch Zmax (configured species Zmax)); [|reflexivity]);
      try (destruct (configured species Ymax =? "remove"); [|reflexivity]);
      cbn [negb];
      (split; [reflexivity|]);
      intros f; rewrite Hact, ?H1, ?Hrz, ?H2;
      try (destruct (Patch.isYmax patch) eqn:HY);
      rewrite ?bc_set_bc, ?bc_block_effect, ?bc_limits_defined.
    all: destruct f; cbn [face_eqb andb negb Patch.on_boundary];
      rewrite ?HY;
      repeat match goal with
             | |- context [if ?b then _ else _] => destruct b
             | |- context [match ?o with Some _ => _ | None => _ end] =>
                 destruct o
             end;
      reflexivity.
Qed.

(** X1. In a constructed object the six function pointers are those of the
    dispatch table: NULL off the global boundary; on it, the function of
    the configured value for a face whose Cartesian block is executed,
    [remove_particle] for [remove] on the outer radial face in Rz geometry,
    NULL otherwise. *)
Theorem bc_is_the_dispatch_table params species patch pbc :
  PartBoundCond params species patch = Ok pbc ->
  forall f, bc pbc f = expected_bc params species patch f.
Proof.
  intros H. pose proof (PartBoundCond_run params species patch) as Hrun.
  rewrite H in Hrun. apply Hrun.
Qed.

Lemma bc_is_the_dispatch_table_witness :
  exists pbc,
    PartBoundCond Deck.deck_3d
      (Deck.photon [["reflective"; "remove"]; ["stop"; "thermalize"];
                    ["periodic"; "stop"]])
      Deck.boundary_patch = Ok pbc
    /\ bc pbc Xmin = Some reflect_particle
    /\ bc pbc Xmax = Some remove_photon
    /\ bc pbc Ymax = Some thermalize_particle
    /\ bc pbc Zmin = None.
Proof.
  eexists. split; [vm_compute; reflexivity|].
  pose proof (bc_is_the_dispatch_table
                Deck.deck_3d
                (Deck.photon [["reflective"; "remove"]; ["stop"; "thermalize"];
                              ["periodic"; "stop"]])
                Deck.boundary_patch _ eq_refl) as H.
  repeat split; rewrite H; reflexivity.
Defined.

(** X2. Whether the constructor completes, and with which error it aborts,
    is decided by the first failing check in the order: consistency loop,
    executed faces from Xmin to Zmax, outer radial face. *)
Theorem first_error_decides_the_outcome params species patch :
  (forall e, PartBoundCond params species patch = Error e
             <-> first_error params species = Some e)
  /\ ((exists pbc, PartBoundCond params species patch = Ok pbc)
      <-> first_error params species = None).
Proof.
  pose proof (PartBoundCond_run params species patch) as Hrun.
  destruct (PartBoundCond params species patch) as [pbc|e0].
  - destruct Hrun as [Hnone _]. split.
    + intros e. rewrite Hnone. split; discriminate.
    + split; [intros _; exact Hnone | intros _; exists pbc; reflexivity].
  - split.
    + intros e. rewrite Hrun. split; intros H; inversion H; reflexivity.
    + rewrite Hrun. split; [intros [pbc H]; discriminate H | discriminate].
Qed.

(** X3. The outcome does not depend on the patch: two patches of the same
    species either both get an object or both abort with the same error. *)
Theorem outcome_is_the_same_on_every_patch params species patch1 patch2 :
  match PartBoundCond params species patch1,
        PartBoundCond params species patch2 with
  | Ok _, Ok _ => True
  | Error e1, Error e2 => e1 = e2
  | _, _ => False
  end.
Proof.
  pose proof (PartBoundCond_run params species patch1) as H1.
  pose proof (PartBoundCond_run params species patch2) as H2.
  destruct (PartBoundCond params species patch1) as [pbc1|e1];
    destruct (PartBoundCond params species patch2) as [pbc2|e2].
  - exact Logic.I.
  - destruct H1 as [H1 _]. rewrite H1 in H2. discriminate H2.
  - destruct H2 as [H2 _]. rewrite H2 in H1. discriminate H1.
  - rewrite H1 in H2. inversion H2. reflexivity.
Qed.

(** X4. For a tracked species the consistency loop is skipped: the
    constructor never aborts with the periodic-EM error, whatever the EM
    and species boundaries are. *)
Theorem tracked_species_skip_the_consistency_check params species patch :
  Particles.tracked (Species.particles species) = true ->
  forall n iDim,
    PartBoundCond params species patch
    <> Error (PeriodicEM_requires_periodic n iDim).
Proof.
  intros Ht n i H. apply errors_justified in H.
  destruct H as (_ & Hf & _). rewrite Ht in Hf. discriminate Hf.
Qed.

Lemma tracked_species_skip_the_consistency_check_witness :
  (exists pbc,
     PartBoundCond Deck.deck_2d_periodic_y
       (TrackedDeck.tracked_electron
          [["reflective"; "reflective"]; ["reflective"; "reflective"]])
       Deck.boundary_patch = Ok pbc)
  /\ PartBoundCond Deck.deck_2d_periodic_y
       (TrackedDeck.tracked_electron
          [["reflective"; "reflective"]; ["reflective"; "reflective"]])
       Deck.boundary_patch
     <> Error (PeriodicEM_requires_periodic "sp" 1).
Proof.
  split.
  - eexists. vm_compute. reflexivity.
  - apply (tracked_species_skip_the_consistency_check
             Deck.deck_2d_periodic_y
             (TrackedDeck.tracked_electron
                [["reflective"; "reflective"]; ["reflective"; "reflective"]])
             Deck.boundary_patch eq_refl).
Defined.

(** ** The limits of the local domain *)

Lemma limits_set_bc f p s :
  x_min (set_bc f p s) = x_min s /\ x_max (set_bc f p s) = x_max s
  /\ y_min (set_bc f p s) = y_min s /\ y_max (set_bc f p s) = y_max s
  /\ z_min (set_bc f p s) = z_min s /\ z_max (set_bc f p s) = z_max s.
Proof. destruct f; repeat split; reflexivity. Qed.

(** The dispatch leaves the six limits as the first stage defined them. *)
Lemma limits_of_constructed params species patch pbc :
  PartBoundCond params species patch = Ok pbc ->
  x_min pbc = x_min (limits_defined params patch)
  /\ x_max pbc = x_max (limits_defined params patch)
  /\ y_min pbc = y_min (limits_defined params patch)
  /\ y_max pbc = y_max (limits_defined params patch)
  /\ z_min pbc = z_min (limits_defined params patch)
  /\ z_max pbc = z_max (limits_defined params patch).
Proof.
  apply (PartBoundCond_invariant params species patch
           (fun s =>
              x_min s = x_min (limits_defined params patch)
              /\ x_max s = x_max (limits_defined params patch)
              /\ y_min s = y_min (limits_defined params patch)
              /\ y_max s = y_max (limits_defined params patch)
              /\ z_min s = z_min (limits_defined params patch)
              /\ z_max s = z_max (limits_defined params patch))).
  - intros f p s _ H.
    destruct (limits_set_bc f p s) as (E1 & E2 & E3 & E4 & E5 & E6).
    rewrite E1, E2, E3, E4, E5, E6. exact H.
  - intros s1 H1. rewrite define_limits_run in H1. inversion H1.
    repeat split; reflexivity.
Qed.

Ltac compute_limits :=
  unfold limits_defined, define_limits, bind, when, modify, skip, ret;
  repeat match goal with
         | |- context [if ?b then _ else _] => destruct b
         end;
  reflexivity.

Lemma x_limits_defined params patch :
  x_min (limits_defined params patch)
  = Some (if (vec2_at (Params.EM_BCs params) 0 0 =? "periodic")
             || Params.hasWindow params
          then Patch.getDomainLocalMin patch 0
          else dmax 0%float (Patch.getDomainLocalMin patch 0))
  /\ x_max (limits_defined params patch)
     = Some (if (vec2_at (Params.EM_BCs params) 0 0 =? "periodic")
                || Params.hasWindow params
             then Patch.getDomainLocalMax patch 0
             else dmin (x_max_global params) (Patch.getDomainLocalMax patch 0)).
Proof. split; compute_limits. Qed.

Lemma y_limits_defined params patch :
  y_min (limits_defined params patch)
  = (if (1 <? Params.nDim_particle params)%nat
     then Some (if vec2_at (Params.EM_BCs params) 1 0 =? "periodic"
                then Patch.getDomainLocalMin patch 1
                else dmax 0%float (Patch.getDomainLocalMin patch 1))
     else None)
  /\ y_max (limits_defined params patch)
     = (if (1 <? Params.nDim_particle params)%nat
        then Some (if vec2_at (Params.EM_BCs params) 1 0 =? "periodic"
                   then Patch.getDomainLocalMax patch 1
                   else dmin (y_max_global params)
                             (Patch.getDomainLocalMax patch 1))
        else None).
Proof. split; compute_limits. Qed.

Lemma z_limits_defined params patch :
  z_min (limits_defined params patch)
  = (if (2 <? Params.nDim_particle params)%nat && negb (geometry_isRZ params)
     then Some (if vec2_at (Params.EM_BCs params) 2 0 =? "periodic"
                then Patch.getDomainLocalMin patch 2
                else dmax 0%float (Patch.getDomainLocalMin patch 2))
     else None)
  /\ z_max (limits_defined params patch)
     = (if (2 <? Params.nDim_particle params)%nat && negb (geometry_isRZ params)
        then Some (if vec2_at (Params.EM_BCs params) 2 0 =? "periodic"
                   then Patch.getDomainLocalMax patch 2
                   else dmin (z_max_global params)
                             (Patch.getDomainLocalMax patch 2))
        else None).
Proof.
  split; unfold limits_defined, define_limits, bind, when, modify, skip, ret;
    destruct ((vec2_at (Params.EM_BCs params) 0 0 =? "periodic")
              || Params.hasWindow params);
    destruct (1 <? Params.nDim_particle params)%nat eqn:H1;
    destruct (2 <? Params.nDim_particle params)%nat eqn:H2;
    try (apply Nat.ltb_lt in H2; apply Nat.ltb_ge in H1; lia);
    destruct (vec2_at (Params.EM_BCs params) 1 0 =? "periodic");
    destruct (geometry_isRZ params);
    destruct (vec2_at (Params.EM_BCs params) 2 0 =? "periodic");
    reflexivity.
Qed.

(** X5. The y limits are assigned only when particles have more than one
    dimension; they are the patch-local bounds when the y EM boundary (min
    side) is periodic and are clamped to the global extent otherwise.  The
    moving window plays no part. *)
Theorem y_limits_follow_the_y_EM_boundary params species patch pbc :
  PartBoundCond params species patch = Ok pbc ->
  ((Params.nDim_particle params <= 1)%nat ->
     y_min pbc = None /\ y_max pbc = None)
  /\ ((1 < Params.nDim_particle params)%nat ->
      vec2_at (Params.EM_BCs params) 1 0 = "periodic" ->
      y_min pbc = Some (Patch.getDomainLocalMin patch 1)
      /\ y_max pbc = Some (Patch.getDomainLocalMax patch 1))
  /\ ((1 < Params.nDim_particle params)%nat ->
      vec2_at (Params.EM_BCs params) 1 0 <> "periodic" ->
      y_min pbc = Some (dmax 0%float (Patch.getDomainLocalMin patch 1))
      /\ y_max pbc =
           Some (dmin (PrimFloat.mul
                         (vecd_at (Params.cell_length params) 1)
                         (double_of_uint (vecu_at (Params.n_space_global params) 1)))
                      (Patch.getDomainLocalMax patch 1))).
Proof.
  intros H.
  destruct (limits_of_constructed _ _ _ _ H) as (_ & _ & Hlo & Hhi & _).
  destruct (y_limits_defined params patch) as [Dlo Dhi].
  rewrite Hlo, Hhi, Dlo, Dhi. split; [|split].
  - intros Hn. apply Nat.ltb_ge in Hn. rewrite Hn. split; reflexivity.
  - intros Hn Hp. apply Nat.ltb_lt in Hn. apply String.eqb_eq in Hp.
    rewrite Hn, Hp. split; reflexivity.
  - intros Hn Hp. apply Nat.ltb_lt in Hn. apply String.eqb_neq in Hp.
    rewrite Hn, Hp. split; reflexivity.
Qed.

Lemma y_limits_follow_the_y_EM_boundary_witness :
  exists pbc,
    PartBoundCond Deck.deck_2d_window
      (Deck.electron [["remove"; "remove"]; ["reflective"; "reflective"]])
      Deck.boundary_patch = Ok pbc
    /\ x_max pbc = Some 12%float
    /\ y_min pbc = Some 4%float /\ y_max pbc = Some 8%float.
Proof.
  eexists. split; [vm_compute; reflexivity|]. split; [reflexivity|].
  destruct (y_limits_follow_the_y_EM_boundary
              Deck.deck_2d_window
              (Deck.electron [["remove"; "remove"]; ["reflective"; "reflective"]])
              Deck.boundary_patch _ eq_refl) as (_ & _ & Hclamp).
  apply Hclamp; [simpl; lia | discriminate].
Defined.

(** X6. The z limits are assigned only when particles have more than two
    dimensions and the geometry is not [3drz]: in Rz geometry, and below
    three dimensions, [z_min] and [z_max] are left unassigned.  When
    assigned they follow the z EM boundary as the y limits follow the y
    one. *)
Theorem z_limits_are_left_unassigned_in_Rz params species patch pbc :
  PartBoundCond params species patch = Ok pbc ->
  ((Params.nDim_particle params <= 2)%nat \/ Params.geometry params = "3drz" ->
     z_min pbc = None /\ z_max pbc = None)
  /\ ((2 < Params.nDim_particle params)%nat ->
      Params.geometry params <> "3drz" ->
      z_min pbc =
        Some (if vec2_at (Params.EM_BCs params) 2 0 =? "periodic"
              then Patch.getDomainLocalMin patch 2
              else dmax 0%float (Patch.getDomainLocalMin patch 2))
      /\ z_max pbc =
           Some (if vec2_at (Params.EM_BCs params) 2 0 =? "periodic"
                 then Patch.getDomainLocalMax patch 2
                 else dmin (PrimFloat.mul
                              (vecd_at (Params.cell_length params) 2)
                              (double_of_uint
                                 (vecu_at (Params.n_space_global params) 2)))
                           (Patch.getDomainLocalMax patch 2))).
Proof.
  intros H.
  destruct (limits_of_constructed _ _ _ _ H) as (_ & _ & _ & _ & Hlo & Hhi).
  destruct (z_limits_defined params patch) as [Dlo Dhi].
  rewrite Hlo, Hhi, Dlo, Dhi. split.
  - intros [Hn | Hg].
    + apply Nat.ltb_ge in Hn. rewrite Hn. split; reflexivity.
    + rewrite (geometry_isRZ_3drz _ Hg), andb_false_r. split; reflexivity.
  - intros Hn Hg. apply Nat.ltb_lt in Hn. apply String.eqb_neq in Hg.
    unfold geometry_isRZ. rewrite Hn, Hg. split; reflexivity.
Qed.

Lemma z_limits_are_left_unassigned_in_Rz_witness :
  exists pbc,
    PartBoundCond Deck.deck_rz
      (Deck.electron [["remove"; "remove"]; ["none"; "remove"]])
      Deck.boundary_patch = Ok pbc
    /\ y_max pbc = Some 8%float
    /\ z_min pbc = None /\ z_max pbc = None.
Proof.
  eexists. split; [vm_compute; reflexivity|]. split; [reflexivity|].
  destruct (z_limits_are_left_unassigned_in_Rz
              Deck.deck_rz
              (Deck.electron [["remove"; "remove"]; ["none"; "remove"]])
              Deck.boundary_patch _ eq_refl) as (Hnone & _).
  apply Hnone. right. reflexivity.
Defined.

(** ** Clamped limits stay inside both domains *)

Lemma SFcompare_Lt_Gt x y :
  SpecFloat.SFcompare x y = Some Lt -> SpecFloat.SFcompare y x = Some Gt.
Proof.
  destruct x as [sx|sx| |sx mx ex], y as [sy|sy| |sy my ey]; simpl;
    try discriminate;
    try (destruct sx; (discriminate || reflexivity));
    try (destruct sy; (discriminate || reflexivity));
    try (destruct sx, sy; (discriminate || reflexivity)).
  change (Pos.compare_cont Eq mx my) with (Pos.compare mx my).
  change (Pos.compare_cont Eq my mx) with (Pos.compare my mx).
  rewrite (Z.compare_antisym ex ey), (Pos.compare_antisym mx my).
  destruct sx, sy; try discriminate; try reflexivity;
    destruct (ex ?= ey)%Z; simpl; try discriminate; try reflexivity;
    destruct (mx ?= my)%positive; simpl; (discriminate || reflexivity).
Qed.

(** [<] on doubles is asymmetric, NaN included. *)
Lemma double_lt_asym x y :
  PrimFloat.ltb x y = true -> PrimFloat.ltb y x = false.
Proof.
  rewrite !FloatAxioms.ltb_spec. unfold SpecFloat.SFltb.
  destruct (SpecFloat.SFcompare (FloatOps.Prim2SF x) (FloatOps.Prim2SF y))
    as [[]|] eqn:H; try discriminate.
  intros _. rewrite (SFcompare_Lt_Gt _ _ H). reflexivity.
Qed.

Lemma double_lt_irrefl x : PrimFloat.ltb x x = false.
Proof.
  destruct (PrimFloat.ltb x x) eqn:H; [|reflexivity].
  rewrite (double_lt_asym _ _ H) in H. discriminate H.
Qed.

(** [std::max] is below neither argument, [std::min] above neither. *)
Lemma dmax_not_below a b :
  PrimFloat.ltb (dmax a b) a = false /\ PrimFloat.ltb (dmax a b) b = false.
Proof.
  unfold dmax. destruct (PrimFloat.ltb a b) eqn:H; split.
  - apply double_lt_asym, H.
  - apply double_lt_irrefl.
  - apply double_lt_irrefl.
  - exact H.
Qed.

Lemma dmin_not_above a b :
  PrimFloat.ltb a (dmin a b) = false /\ PrimFloat.ltb b (dmin a b) = false.
Proof.
  unfold dmin. destruct (PrimFloat.ltb b a) eqn:H; split.
  - apply double_lt_asym, H.
  - apply double_lt_irrefl.
  - apply double_lt_irrefl.
  - exact H.
Qed.

(** X7. When the x limits are clamped (x EM boundary not periodic, no
    window), [x_min] is below neither the global minimum 0 nor the local
    minimum, and [x_max] is above neither the global maximum
    [cell_length[0]*n_space_global[0]] nor the local maximum. *)
Theorem clamped_x_limits_stay_inside params species patch pbc :
  PartBoundCond params species patch = Ok pbc ->
  Params.hasWindow params = false ->
  vec2_at (Params.EM_BCs params) 0 0 <> "periodic" ->
  exists lo hi,
    x_min pbc = Some lo /\ x_max pbc = Some hi
    /\ PrimFloat.ltb lo 0%float = false
    /\ PrimFloat.ltb lo (Patch.getDomainLocalMin patch 0) = false
    /\ PrimFloat.ltb (x_max_global params) hi = false
    /\ PrimFloat.ltb (Patch.getDomainLocalMax patch 0) hi = false.
Proof.
  intros H Hw Hp. apply String.eqb_neq in Hp.
  destruct (limits_of_constructed _ _ _ _ H) as (Hlo & Hhi & _).
  destruct (x_limits_defined params patch) as [Dlo Dhi].
  rewrite Hw, Hp in Dlo, Dhi. simpl in Dlo, Dhi.
  exists (dmax 0%float (Patch.getDomainLocalMin patch 0)),
         (dmin (x_max_global params) (Patch.getDomainLocalMax patch 0)).
  rewrite Hlo, Hhi, Dlo, Dhi.
  destruct (dmax_not_below 0%float (Patch.getDomainLocalMin patch 0)).
  destruct (dmin_not_above (x_max_global params)
                           (Patch.getDomainLocalMax patch 0)).
  repeat split; assumption.
Qed.

Lemma clamped_x_limits_stay_inside_witness :
  exists pbc lo hi,
    PartBoundCond Deck.deck_2d
      (Deck.electron [["remove"; "remove"]; ["reflective"; "reflective"]])
      TrackedDeck.covering_patch = Ok pbc
    /\ x_min pbc = Some lo /\ x_max pbc = Some hi
    /\ PrimFloat.ltb lo 0%float = false
    /\ PrimFloat.ltb (x_max_global Deck.deck_2d) hi = false.
Proof.
  destruct (clamped_x_limits_stay_inside
              Deck.deck_2d
              (Deck.electron [["remove"; "remove"]; ["reflective"; "reflective"]])
              TrackedDeck.covering_patch
              {| isRZ := false; nDim_particle := 2; nDim_field := 2;
                 x_min := Some 0%float; x_max := Some 8%float;
                 y_min := Some 0%float; y_max := Some 8%float;
                 z_min := None; z_max := None;
                 bc_xmin := Some remove_particle;
                 bc_xmax := Some remove_particle;
                 bc_ymin := Some reflect_particle;
                 bc_ymax := Some reflect_particle;
                 bc_zmin := None; bc_zmax := None |})
    as (lo & hi & Hlo & Hhi & H0 & _ & Hg & _).
  - vm_compute. reflexivity.
  - reflexivity.
  - discriminate.
  - eexists _, lo, hi. split; [vm_compute; reflexivity|].
    repeat split; assumption.
Defined.

(** * Further properties of [main] *)

(** ** How long the loop runs *)

Lemma count_app c (a b : list call) :
  count c (a ++ b) = (count c a + count c b)%nat.
Proof. unfold count. rewrite List.filter_app, List.length_app. reflexivity. Qed.

Lemma iteration_step params smpi st :
  itime (snd (iteration params smpi st))
  = ((itime st + 1) mod uint_max_plus_1)%N
  /\ count dynamics (fst (iteration params smpi st)) = 1%nat.
Proof.
  split; [reflexivity|].
  unfold iteration; simpl.
  destruct (fields_not_frozen params _);
    destruct (Params.has_load_balancing params);
    destruct (Params.theTimeIsNow params (itime st));
    destruct (SmileiMPI.isMaster smpi);
    destruct (Params.printNow params (itime st));
    reflexivity.
Qed.

(** X8. The loop performs one step per value of the counter from its
    start up to the first value [k] at which the loop condition fails (the
    counter passed [n_time], or [exit_asap] was raised): it issues
    [k - itime] steps and leaves the counter at [k]. *)
Theorem time_loop_runs_until_the_condition_fails
    params smpi checkpoint (k : N) fuel :
  forall st,
    (itime st <= k)%N -> (k < uint_max_plus_1)%N ->
    (forall i, (itime st <= i < k)%N -> continues params checkpoint i = true) ->
    continues params checkpoint k = false ->
    (N.to_nat (k - itime st) <= fuel)%nat ->
    itime (snd (time_loop params smpi checkpoint fuel st)) = k
    /\ count dynamics (fst (time_loop params smpi checkpoint fuel st))
       = N.to_nat (k - itime st).
Proof.
  induction fuel as [|fuel IH]; intros st Hle Hk Hcont Hstop Hfuel.
  - assert (itime st = k) by lia. subst k. simpl.
    split; [reflexivity|]. rewrite N.sub_diag. reflexivity.
  - rewrite time_loop_S.
    change (loop_condition params checkpoint st)
      with (continues params checkpoint (itime st)).
    destruct (N.eq_dec (itime st) k) as [Heq|Hne].
    + rewrite Heq, Hstop. simpl. split; [exact Heq|].
      rewrite <- Heq, N.sub_diag. reflexivity.
    + rewrite (Hcont (itime st)) by lia.
      destruct (iteration_step params smpi st) as [Hit Hcount].
      destruct (iteration params smpi st) as [calls st'].
      simpl in Hit, Hcount.
      assert (Hst' : itime st' = (itime st + 1)%N).
      { rewrite Hit. apply N.mod_small. lia. }
      destruct (IH st') as [Hend Hsteps]; try assumption; try lia.
      { intros i Hi. apply Hcont. lia. }
      destruct (time_loop params smpi checkpoint fuel st') as [rest st''].
      simpl in *. split; [exact Hend|].
      rewrite count_app, Hcount, Hsteps. lia.
Qed.

Lemma time_loop_runs_until_the_condition_fails_witness :
  itime (snd (time_loop Deck.deck_3d Run.rank0 MainDeck.exit_at_3 10
                        (Run.at_time 0.125%float 1%N))) = 3%N
  /\ count dynamics
       (fst (time_loop Deck.deck_3d Run.rank0 MainDeck.exit_at_3 10
                       (Run.at_time 0.125%float 1%N))) = 2%nat.
Proof.
  apply (time_loop_runs_until_the_condition_fails
           Deck.deck_3d Run.rank0 MainDeck.exit_at_3 3 10
           (Run.at_time 0.125%float 1%N)).
  - simpl. lia.
  - reflexivity.
  - intros i Hi. simpl in Hi.
    assert (Hcases : i = 1%N \/ i = 2%N) by lia.
    destruct Hcases; subst i; reflexivity.
  - reflexivity.
  - simpl. lia.
Defined.

(** X9. With [n_time] at the largest [unsigned int] and no exit request
    the loop condition never fails: the counter wraps to 0 and every unit
    of fuel is spent on a step. *)
Theorem loop_never_exits_when_n_time_is_UINT_MAX
    params smpi checkpoint fuel :
  forall st,
    Params.n_time params = (uint_max_plus_1 - 1)%N ->
    (forall i, Checkpoint.exit_asap checkpoint i = false) ->
    (itime st < uint_max_plus_1)%N ->
    count dynamics (fst (time_loop params smpi checkpoint fuel st)) = fuel
    /\ loop_condition params checkpoint
         (snd (time_loop params smpi checkpoint fuel st)) = true.
Proof.
  induction fuel as [|fuel IH]; intros st Hn Hexit Hlt.
  - simpl. split; [reflexivity|].
    unfold loop_condition. rewrite Hn, Hexit.
    assert (Hle : (itime st <=? uint_max_plus_1 - 1)%N = true)
      by (apply N.leb_le; lia).
    rewrite Hle. reflexivity.
  - rewrite time_loop_S.
    assert (Hc : loop_condition params checkpoint st = true).
    { unfold loop_condition. rewrite Hn, Hexit.
      assert (Hle : (itime st <=? uint_max_plus_1 - 1)%N = true)
        by (apply N.leb_le; lia).
      rewrite Hle. reflexivity. }
    rewrite Hc.
    destruct (iteration_step params smpi st) as [Hit Hcount].
    destruct (iteration params smpi st) as [calls st'].
    simpl in Hit, Hcount.
    destruct (IH st' Hn Hexit) as [Hsteps Hcond].
    { rewrite Hit. apply N.mod_lt. discriminate. }
    destruct (time_loop params smpi checkpoint fuel st') as [rest st''].
    simpl in *. split; [|exact Hcond].
    rewrite count_app, Hcount, Hsteps. reflexivity.
Qed.

Lemma loop_never_exits_when_n_time_is_UINT_MAX_witness :
  count dynamics
    (fst (time_loop MainDeck.deck_uint_max Run.rank0 Run.from_scratch 3
                    (Run.at_time 0.125%float 4294967295%N))) = 3%nat
  /\ itime (snd (time_loop MainDeck.deck_uint_max Run.rank0 Run.from_scratch 3
                           (Run.at_time 0.125%float 4294967295%N))) = 2%N.
Proof.
  split; [|vm_compute; reflexivity].
  apply (loop_never_exits_when_n_time_is_UINT_MAX
           MainDeck.deck_uint_max Run.rank0 Run.from_scratch 3
           (Run.at_time 0.125%float 4294967295%N));
    [reflexivity | intros i; reflexivity | reflexivity].
Defined.

(** ** What depends on the rank *)

Lemma iteration_on_two_ranks params smpi1 smpi2 st :
  snd (iteration params smpi1 st) = snd (iteration params smpi2 st)
  /\ List.filter not_print (fst (iteration params smpi1 st))
     = List.filter not_print (fst (iteration params smpi2 st)).
Proof.
  split; [reflexivity|].
  unfold iteration; simpl.
  destruct (fields_not_frozen params _);
    destruct (Params.has_load_balancing params);
    destruct (Params.theTimeIsNow params (itime st));
    destruct (SmileiMPI.isMaster smpi1);
    destruct (SmileiMPI.isMaster smpi2);
    destruct (Params.printNow params (itime st));
    reflexivity.
Qed.

(** X10. Two ranks that enter the loop in the same state run the same
    number of steps, end in the same state and issue the same calls in the
    same order, but for [print_timestep], which only the master issues: in
    particular they issue the same barriers and mirror-domain calls. *)
Theorem ranks_differ_only_by_printing params smpi1 smpi2 checkpoint fuel :
  forall st,
    snd (time_loop params smpi1 checkpoint fuel st)
    = snd (time_loop params smpi2 checkpoint fuel st)
    /\ List.filter not_print (fst (time_loop params smpi1 checkpoint fuel st))
       = List.filter not_print (fst (time_loop params smpi2 checkpoint fuel st)).
Proof.
  induction fuel as [|fuel IH]; intros st.
  - split; reflexivity.
  - rewrite !time_loop_S.
    destruct (loop_condition params checkpoint st); [|split; reflexivity].
    destruct (iteration_on_two_ranks params smpi1 smpi2 st) as [Hst Hcalls].
    destruct (iteration params smpi1 st) as [calls1 st1].
    destruct (iteration params smpi2 st) as [calls2 st2].
    simpl in Hst, Hcalls. subst st2.
    destruct (IH st1) as [Hend Hrest].
    destruct (time_loop params smpi1 checkpoint fuel st1) as [rest1 end1].
    destruct (time_loop params smpi2 checkpoint fuel st1) as [rest2 end2].
    simpl in *. split; [exact Hend|].
    rewrite !List.filter_app, Hcalls, Hrest. reflexivity.
Qed.

(** ** The fill loops of the partition *)






(** ** Test mode, and the mirror domain at the end of the run *)

Lemma setup_not_in_steps (c : Main.setup_call) (l : list call) :
  ~ In (Main.setup c) (map Main.step l).
Proof.
  intros H. apply in_map_iff in H as (x & Hx & _). discriminate Hx.
Qed.

Lemma filter_is_step_setup (l : list Main.setup_call) :
  List.filter Main.is_step (map Main.setup l) = [].
Proof. induction l as [|c l IH]; simpl; [reflexivity | exact IH]. Qed.

(** X12. In test mode [main] returns 0 after [execute_test_mode]: every
    call issued is one of readPatchDistribution, createVector, restartAll,
    check_expected_disk_usage, params.cleanup, delete simWindow,
    closePython.  So no call of the simulation proper is issued (no charge,
    Poisson or external-field call, no densities, dynamics, diagnostics or
    loop call), the mirror domain is not built, the patches are restored
    exactly when the run is a restart, and the run ends by cleaning up the
    python runtime, deleting the window and closing python. *)
Theorem test_mode_runs_no_step
    env params smpi checkpoint identify_additional identify_missing fuel d :
  Main.test_mode env = true ->
  fst (Main.main env params smpi checkpoint
                 identify_additional identify_missing fuel d) = 0%Z
  /\ forallb test_mode_only
       (snd (Main.main env params smpi checkpoint
                       identify_additional identify_missing fuel d)) = true
  /\ List.filter Main.is_step
       (snd (Main.main env params smpi checkpoint
                       identify_additional identify_missing fuel d)) = []
  /\ ~ In (Main.setup Main.computeCharge)
          (snd (Main.main env params smpi checkpoint
                          identify_additional identify_missing fuel d))
  /\ ~ In (Main.setup Main.solvePoisson)
          (snd (Main.main env params smpi checkpoint
                          identify_additional identify_missing fuel d))
  /\ ~ In (Main.setup Main.applyExternalFields)
          (snd (Main.main env params smpi checkpoint
                          identify_additional identify_missing fuel d))
  /\ ~ In (Main.setup Main.domain_build)
          (snd (Main.main env params smpi checkpoint
                          identify_additional identify_missing fuel d))
  /\ ~ In (Main.setup Main.initAllDiags)
          (snd (Main.main env params smpi checkpoint
                          identify_additional identify_missing fuel d))
  /\ (In (Main.setup Main.restartAll)
         (snd (Main.main env params smpi checkpoint
                         identify_additional identify_missing fuel d))
      <-> Main.restart env = true)
  /\ exists before,
       snd (Main.main env params smpi checkpoint
                      identify_additional identify_missing fuel d)
       = before ++ [Main.setup Main.params_cleanup;
                    Main.setup Main.delete_simWindow;
                    Main.setup Main.closePython].
Proof.
  intros Ht.
  assert (Hnot : forall c l,
            forallb test_mode_only l = true -> test_mode_only c = false ->
            ~ In c l).
  { intros c l Hall Hc Hin.
    rewrite forallb_forall in Hall. rewrite (Hall c Hin) in Hc.
    discriminate Hc. }
  assert (Hall : forallb test_mode_only
                   (snd (Main.main env params smpi checkpoint
                                   identify_additional identify_missing fuel d))
                 = true).
  { unfold Main.main. rewrite Ht. cbn [snd]. unfold Main.execute_test_mode.
    cbn [snd].
    destruct (Main.restart env); destruct (Main.print_expected_disk_usage env);
      reflexivity. }
  split; [unfold Main.main; rewrite Ht; reflexivity|].
  split; [exact Hall|].
  split; [unfold Main.main; rewrite Ht; apply filter_is_step_setup|].
  split; [apply (Hnot _ _ Hall); reflexivity|].
  split; [apply (Hnot _ _ Hall); reflexivity|].
  split; [apply (Hnot _ _ Hall); reflexivity|].
  split; [apply (Hnot _ _ Hall); reflexivity|].
  split; [apply (Hnot _ _ Hall); reflexivity|].
  clear Hall Hnot.
  unfold Main.main. rewrite Ht. cbn [snd]. unfold Main.execute_test_mode.
  cbn [snd].
  destruct (Main.restart env); destruct (Main.print_expected_disk_usage env);
    simpl;
    (split;
     [split;
      [intros H; first [reflexivity | intuition discriminate]
      |intros H; first [discriminate H | auto 10]]
     |]);
    match goal with
    | |- exists before, ?l = before ++ _ =>
        exists (firstn (length l - 3) l); reflexivity
    end.
Qed.

Lemma test_mode_runs_no_step_witness :
  snd (Main.main MainDeck.test_restart Deck.deck_2d Run.rank0
                 Run.from_scratch (fun d => d) (fun d => d) 4 Run.tables)
  = map Main.setup
        [Main.readPatchDistribution;
         Main.createVector 1 (Some 5%Z);
         Main.restartAll;
         Main.check_expected_disk_usage;
         Main.params_cleanup; Main.delete_simWindow; Main.closePython]
  /\ forallb test_mode_only
       (snd (Main.main MainDeck.test_restart Deck.deck_2d Run.rank0
                       Run.from_scratch (fun d => d) (fun d => d) 4 Run.tables))
     = true
  /\ ~ In (Main.setup Main.computeCharge)
          (snd (Main.main MainDeck.test_restart Deck.deck_2d Run.rank0
                          Run.from_scratch (fun d => d) (fun d => d)
                          4 Run.tables)).
Proof.
  destruct (test_mode_runs_no_step
              MainDeck.test_restart Deck.deck_2d Run.rank0
              Run.from_scratch (fun d => d) (fun d => d) 4 Run.tables eq_refl)
    as (_ & Hall & _ & Hcharge & _).
  split; [vm_compute; reflexivity|].
  split; [exact Hall | exact Hcharge].
Defined.

Lemma domain_clean_not_in_initialize env params checkpoint :
  ~ In (Main.setup Main.domain_clean)
       (fst (Main.initialize env params checkpoint)).
Proof.
  unfold Main.initialize, Main.compute_tables.
  destruct (Main.restart env);
    [|destruct (negb (Main.isRhoNull env) && Main.solve_poisson env)];
    simpl; intros H; intuition discriminate.
Qed.

(** X13. Outside test mode the mirror domain is built on every run, but
    cleaned at the end only when the product of [global_factor] over the
    field dimensions, taken in [unsigned int], is not 1. *)
Theorem domain_is_built_always_and_cleaned_only_if_factor_is_not_1
    env params smpi checkpoint identify_additional identify_missing fuel d :
  Main.test_mode env = false ->
  In (Main.setup Main.domain_build)
     (snd (Main.main env params smpi checkpoint
                     identify_additional identify_missing fuel d))
  /\ (In (Main.setup Main.domain_clean)
         (snd (Main.main env params smpi checkpoint
                         identify_additional identify_missing fuel d))
      <-> Main.global_factor_product env params <> 1%N).
Proof.
  intros Ht. unfold Main.main. rewrite Ht.
  pose proof (domain_clean_not_in_initialize env params checkpoint) as Hinit.
  destruct (Main.initialize env params checkpoint) as [init_calls times].
  destruct (identify_patches smpi identify_additional identify_missing d)
    as [partition_calls d'].
  destruct (time_loop params smpi checkpoint fuel _) as [loop_calls st].
  simpl fst in Hinit. cbn [snd].
  split.
  - apply in_or_app. right. simpl. auto.
  - rewrite !in_app_iff.
    destruct (N.eqb_spec (Main.global_factor_product env params) 1) as [He|Hne].
    + split; [|intros H; contradiction].
      intros H. exfalso.
      destruct H as [H | [H | [H | [H | [H | [H | [H | H]]]]]]];
        try (apply setup_not_in_steps in H; exact H);
        try (apply Hinit; exact H);
        try (destruct (SmileiMPI.isMaster smpi));
        simpl in H; intuition discriminate.
    + split; [intros _; exact Hne|].
      intros _. right. right. right. right. right. right. left.
      simpl. auto.
Qed.

Lemma domain_is_built_always_and_cleaned_only_if_factor_is_not_1_witness :
  Main.global_factor_product (MainDeck.fresh [3%N; 2863311531%N]) Deck.deck_2d
  = 1%N
  /\ (In (Main.setup Main.domain_clean)
         (snd (Main.main (MainDeck.fresh [2%N; 1%N]) Deck.deck_2d Run.rank0
                         Run.from_scratch (fun d => d) (fun d => d)
                         2 Run.tables))
      <-> Main.global_factor_product (MainDeck.fresh [2%N; 1%N]) Deck.deck_2d
          <> 1%N).
Proof.
  split; [vm_compute; reflexivity|].
  apply (domain_is_built_always_and_cleaned_only_if_factor_is_not_1
           (MainDeck.fresh [2%N; 1%N]) Deck.deck_2d Run.rank0
           Run.from_scratch (fun d => d) (fun d => d) 2 Run.tables eq_refl).
Defined.

(** ** Accounting over the whole loop *)

Lemma iteration_accounting params smpi st :
  count checkpoint_dump (fst (iteration params smpi st)) = 1%nat
  /\ count MPI_Barrier (fst (iteration params smpi st))
     = (1 + 2 * count solveMaxwell (fst (iteration params smpi st)))%nat
  /\ (count load_balance (fst (iteration params smpi st))
      <= if Params.has_load_balancing params then 1 else 0)%nat.
Proof.
  unfold iteration; simpl.
  destruct (fields_not_frozen params _);
    destruct (Params.has_load_balancing params);
    destruct (Params.theTimeIsNow params (itime st));
    destruct (SmileiMPI.isMaster smpi);
    destruct (Params.printNow params (itime st));
    (split; [|split]); first [reflexivity | cbv; lia].
Qed.

(** X14. Over any run of the loop: [checkpoint.dump] is called once per
    step; the number of global barriers is the number of steps plus twice
    the number of Maxwell solves; [load_balance] is called at most once per
    step, and never when load balancing is disabled. *)
Theorem loop_accounting params smpi checkpoint fuel :
  forall st,
    count checkpoint_dump (fst (time_loop params smpi checkpoint fuel st))
    = count dynamics (fst (time_loop params smpi checkpoint fuel st))
    /\ count MPI_Barrier (fst (time_loop params smpi checkpoint fuel st))
       = (count dynamics (fst (time_loop params smpi checkpoint fuel st))
          + 2 * count solveMaxwell
                  (fst (time_loop params smpi checkpoint fuel st)))%nat
    /\ (count load_balance (fst (time_loop params smpi checkpoint fuel st))
        <= if Params.has_load_balancing params
           then count dynamics (fst (time_loop params smpi checkpoint fuel st))
           else 0)%nat.
Proof.
  induction fuel as [|fuel IH]; intros st.
  - simpl. destruct (Params.has_load_balancing params);
      repeat split; reflexivity.
  - rewrite time_loop_S.
    destruct (loop_condition params checkpoint st);
      [|destruct (Params.has_load_balancing params); repeat split; reflexivity].
    destruct (iteration_accounting params smpi st) as (Hd & Hb & Hl).
    destruct (iteration_step params smpi st) as [_ Hs].
    destruct (iteration params smpi st) as [calls st'].
    destruct (IH st') as (Hd' & Hb' & Hl').
    destruct (time_loop params smpi checkpoint fuel st') as [rest st''].
    simpl in *. rewrite !count_app, Hd, Hb, Hs, Hd', Hb'.
    destruct (Params.has_load_balancing params); repeat split; lia.
Qed.

(** ** A threshold that is never passed *)

Lemma never_below (a : float) :
  a = PrimFloat.infinity \/ a = PrimFloat.nan ->
  forall t, PrimFloat.ltb a t = false.
Proof.
  intros Ha t. rewrite FloatAxioms.ltb_spec. unfold SpecFloat.SFltb.
  destruct Ha as [-> | ->].
  - change (FloatOps.Prim2SF PrimFloat.infinity)
      with (SpecFloat.S754_infinity false).
    destruct (FloatOps.Prim2SF t) as [s|s| |s m e]; simpl;
      try reflexivity; destruct s; reflexivity.
  - change (FloatOps.Prim2SF PrimFloat.nan) with SpecFloat.S754_nan.
    reflexivity.
Qed.

(** X15. When [time_fields_frozen] is [+oo] or NaN the comparison of line
    386 never holds: no iteration of the loop issues a call of the Maxwell
    phase, and each step issues the single barrier of line 383. *)
Theorem fields_frozen_forever params smpi checkpoint fuel :
  Params.time_fields_frozen params = PrimFloat.infinity
  \/ Params.time_fields_frozen params = PrimFloat.nan ->
  forall st,
    List.filter mirror_phase (fst (time_loop params smpi checkpoint fuel st))
    = []
    /\ count MPI_Barrier (fst (time_loop params smpi checkpoint fuel st))
       = count dynamics (fst (time_loop params smpi checkpoint fuel st)).
Proof.
  intros Hf.
  assert (Hit : forall st,
            List.filter mirror_phase (fst (iteration params smpi st)) = []
            /\ count MPI_Barrier (fst (iteration params smpi st)) = 1%nat).
  { intros st. unfold iteration, fields_not_frozen.
    rewrite (never_below _ Hf). simpl.
    destruct (Params.has_load_balancing params);
      destruct (Params.theTimeIsNow params (itime st));
      destruct (SmileiMPI.isMaster smpi);
      destruct (Params.printNow params (itime st));
      split; reflexivity. }
  induction fuel as [|fuel IH]; intros st.
  - split; reflexivity.
  - rewrite time_loop_S.
    destruct (loop_condition params checkpoint st); [|split; reflexivity].
    destruct (Hit st) as [Hm Hb].
    destruct (iteration_step params smpi st) as [_ Hs].
    destruct (iteration params smpi st) as [calls st'].
    destruct (IH st') as [Hm' Hb'].
    destruct (time_loop params smpi checkpoint fuel st') as [rest st''].
    simpl in *. split.
    + rewrite List.filter_app, Hm, Hm'. reflexivity.
    + rewrite !count_app, Hb, Hs, Hb'. reflexivity.
Qed.

Lemma fields_frozen_forever_witness :
  List.filter mirror_phase
    (fst (time_loop FrozenDeck.deck_frozen_forever Run.rank0 Run.from_scratch
                    10 (Run.at_time 0.125%float 1%N))) = []
  /\ count MPI_Barrier
       (fst (time_loop FrozenDeck.deck_frozen_forever Run.rank0
                       Run.from_scratch 10 (Run.at_time 0.125%float 1%N)))
     = count dynamics
         (fst (time_loop FrozenDeck.deck_frozen_forever Run.rank0
                         Run.from_scratch 10 (Run.at_time 0.125%float 1%N))).
Proof.
  apply (fields_frozen_forever
           FrozenDeck.deck_frozen_forever Run.rank0 Run.from_scratch 10).
  left. reflexivity.
Defined.

(** ** Which masses select the photon variant *)

Lemma double_eqb_zero (m : float) :
  PrimFloat.eqb m 0%float = true <-> (m = 0%float \/ m = (-0)%float).
Proof.
  split.
  - rewrite FloatAxioms.eqb_spec. unfold SpecFloat.SFeqb.
    change (FloatOps.Prim2SF 0%float) with (SpecFloat.S754_zero false).
    intros H. rewrite <- (FloatAxioms.SF2Prim_Prim2SF m).
    destruct (FloatOps.Prim2SF m) as [s|s| |s mm e]; simpl in H;
      try discriminate H; try (destruct s; discriminate H).
    destruct s; [right | left]; reflexivity.
  - intros [-> | ->]; reflexivity.
Qed.

(** X16. The local pointer [remove] is [remove_photon] exactly for the
    masses [+0.0] and [-0.0], and [remove_particle] for every other mass,
    NaN included. *)
Theorem photon_variant_exactly_for_zero_mass species :
  (PartBoundCond.remove species = remove_photon
   <-> (Species.mass species = 0%float \/ Species.mass species = (-0)%float))
  /\ (PartBoundCond.remove species = remove_particle
      <-> ~ (Species.mass species = 0%float
             \/ Species.mass species = (-0)%float)).
Proof.
  unfold PartBoundCond.remove.
  pose proof (double_eqb_zero (Species.mass species)) as Hz.
  destruct (PrimFloat.eqb (Species.mass species) 0%float).
  - split.
    + split; [intros _; apply Hz; reflexivity | intros _; reflexivity].
    + split; [intros H; discriminate H
             |intros H; exfalso; apply H, Hz; reflexivity].
  - split.
    + split; [intros H; discriminate H
             |intros H; apply Hz in H; discriminate H].
    + split; [intros _ H; apply Hz in H; discriminate H
             |intros _; reflexivity].
Qed.
